(** * SC-Scanner: a shallow embedding of [SC-Scanner.py]

    The script clones each repository of an input file, runs the
    configured secret scanners on it, labels every (repository, tool)
    pair with a status and renders a report.  This file embeds the
    script's functions as Rocq functions and proves the properties
    that its specification states about them.

    Conventions of the embedding.
    - A Python [str] is the list of its code points ([str := list N]);
      [lit "..."] is an ASCII literal.
    - A decoded JSON document is a [value]; a [dict] is the list of its
      items in insertion order.
    - What the script asks of the outside (the clone, the subprocess,
      the temporary directory, the file, the thread pool's completion
      order) is answered by a [TaskWorld] / [World] record, and what it
      does to the outside is the list of [event]s it returns.
    - An exception is a value of [exn]; a computation that may raise
      returns [exn + A].  Every class modelled derives from Python's
      [Exception].
    - The library functions [json.loads], [str.format], [str.upper] and
      the [str()] conversion of a JSON value are variables of the
      section: every theorem holds whatever they compute. *)

From Stdlib Require Import String Ascii DecimalString.
From Stdlib Require Import List NArith ZArith Bool Arith Lia Permutation.
From Stdlib Require Import Floats.SpecFloat.
Import ListNotations.

Set Warnings "-register-all".

(** ** Strings *)

Definition char := N.
Definition str := list char.

Definition lit (s : string) : str :=
  map N_of_ascii (list_ascii_of_string s).

Fixpoint str_eqb (a b : str) : bool :=
  match a, b with
  | [], [] => true
  | x :: a', y :: b' => N.eqb x y && str_eqb a' b'
  | _, _ => false
  end.

(** [bool(s)] for a string. *)
Definition nonempty (s : str) : bool :=
  match s with [] => false | _ :: _ => true end.

(** The characters [str.strip()] removes: CPython's
    [_PyUnicode_IsWhitespace]. *)
Definition isspace (c : char) : bool :=
  ((9 <=? c) && (c <=? 13) || (28 <=? c) && (c <=? 32)
   || (c =? 133) || (c =? 160) || (c =? 5760)
   || (8192 <=? c) && (c <=? 8202)
   || (c =? 8232) || (c =? 8233) || (c =? 8239) || (c =? 8287)
   || (c =? 12288))%N.

Fixpoint lstrip (s : str) : str :=
  match s with
  | [] => []
  | c :: s' => if isspace c then lstrip s' else s
  end.

Definition rstrip (s : str) : str := rev (lstrip (rev s)).

(** [s.strip()] *)
Definition strip (s : str) : str := rstrip (lstrip s).

(** [s.split(sep)] for a one-character separator: never empty. *)
Fixpoint split (sep : char) (s : str) : list str :=
  match s with
  | [] => [[]]
  | c :: s' =>
      if N.eqb c sep then [] :: split sep s'
      else match split sep s' with
           | [] => [[c]]
           | w :: ws => (c :: w) :: ws
           end
  end.

(** [old] is a prefix of [s]. *)
Fixpoint startswith (s old : str) : bool :=
  match old, s with
  | [], _ => true
  | x :: old', y :: s' => N.eqb x y && startswith s' old'
  | _ :: _, [] => false
  end.

(** [s.replace(old, new)] for a non-empty [old]: occurrences are found
    left to right and do not overlap; [skip] counts the characters of
    the occurrence just replaced that are still to be dropped. *)
Fixpoint replace_from (old new : str) (skip : nat) (s : str) : str :=
  match s with
  | [] => []
  | c :: s' =>
      match skip with
      | S k => replace_from old new k s'
      | O =>
          if startswith s old
          then new ++ replace_from old new (length old - 1) s'
          else c :: replace_from old new 0 s'
      end
  end.

(** [s.replace(old, new)]; with an empty [old] Python puts [new] before
    every character and at the end. *)
Definition replace (old new s : str) : str :=
  match old with
  | [] => new ++ flat_map (fun c => c :: new) s
  | _ :: _ => replace_from old new 0 s
  end.

(** [sep.join(parts)] *)
Fixpoint join (sep : str) (parts : list str) : str :=
  match parts with
  | [] => []
  | [p] => p
  | p :: ps => p ++ sep ++ join sep ps
  end.

(** [s[:n]] *)
Definition prefix (n : nat) (s : str) : str := firstn n s.

(** [str(n)] for a length. *)
Definition str_of_nat (n : nat) : str :=
  lit (NilZero.string_of_uint (Nat.to_uint n)).

(** [posixpath.join(a, b)] *)
Definition path_join (a b : str) : str :=
  if startswith b (lit "/") then b
  else if negb (nonempty a) || N.eqb (last a 0%N) 47 then a ++ b
  else a ++ lit "/" ++ b.

(** colorama's [Fore] constants. *)
Definition ESC : char := 27%N.
Definition Fore_RED : str := ESC :: lit "[31m".
Definition Fore_GREEN : str := ESC :: lit "[32m".
Definition Fore_YELLOW : str := ESC :: lit "[33m".
Definition Fore_CYAN : str := ESC :: lit "[36m".
Definition Fore_WHITE : str := ESC :: lit "[37m".

(** ** Dictionaries: items in insertion order, keys distinct *)

Definition dict (V : Type) := list (str * V).

Fixpoint dict_get {V} (d : dict V) (k : str) : option V :=
  match d with
  | [] => None
  | (k', v) :: d' => if str_eqb k' k then Some v else dict_get d' k
  end.

(** [d[k] = v]: an existing key keeps its place. *)
Fixpoint dict_set {V} (d : dict V) (k : str) (v : V) : dict V :=
  match d with
  | [] => [(k, v)]
  | (k', v') :: d' =>
      if str_eqb k' k then (k', v) :: d' else (k', v') :: dict_set d' k v
  end.

Definition keys {V} (d : dict V) : list str := map fst d.

(** ** Decoded JSON values and what the script asks of them *)

Inductive value :=
| VNone
| VBool (b : bool)
| VInt (z : Z)
| VFloat (f : spec_float)
| VStr (s : str)
| VList (l : list value)
| VDict (d : list (str * value)).

(** [bool(v)] *)
Definition truthy (v : value) : bool :=
  match v with
  | VNone => false
  | VBool b => b
  | VInt z => negb (Z.eqb z 0)
  | VFloat (S754_zero _) => false
  | VFloat _ => true
  | VStr s => nonempty s
  | VList l => match l with [] => false | _ => true end
  | VDict d => match d with [] => false | _ => true end
  end.

(** [type(v).__name__] *)
Definition type_name (v : value) : str :=
  match v with
  | VNone => lit "NoneType"
  | VBool _ => lit "bool"
  | VInt _ => lit "int"
  | VFloat _ => lit "float"
  | VStr _ => lit "str"
  | VList _ => lit "list"
  | VDict _ => lit "dict"
  end.

(** ** Exceptions *)

Inductive exn_class :=
| TimeoutExpired
| JSONDecodeError
| AttributeError
| TypeError
| KeyError
| OtherException.

Record exn := Exn { exn_class_of : exn_class; exn_msg : str }.

(** [str(e)] *)
Definition str_of_exn (e : exn) : str := exn_msg e.

Definition is_TimeoutExpired (e : exn) : bool :=
  match exn_class_of e with TimeoutExpired => true | _ => false end.

Definition is_JSONDecodeError (e : exn) : bool :=
  match exn_class_of e with JSONDecodeError => true | _ => false end.

Definition is_AttributeError (e : exn) : bool :=
  match exn_class_of e with AttributeError => true | _ => false end.

(** [len(v)] *)
Definition py_len (v : value) : exn + nat :=
  match v with
  | VStr s => inr (length s)
  | VList l => inr (length l)
  | VDict d => inr (length d)
  | _ => inl (Exn TypeError
                (lit "object of type '" ++ type_name v ++ lit "' has no len()"))
  end.

(** [v.get(key, default)]: only a dict has the method. *)
Definition py_get (v : value) (key : str) (default : value) : exn + value :=
  match v with
  | VDict d =>
      inr (match dict_get d key with Some x => x | None => default end)
  | _ => inl (Exn AttributeError
                (lit "'" ++ type_name v ++ lit "' object has no attribute 'get'"))
  end.

(** [v == "timeout"] *)
Definition is_timeout (v : value) : bool :=
  match v with
  | VStr s => str_eqb s (lit "timeout")
  | _ => false
  end.

(** ** The registry of tools *)

Record ToolConfig := {
  command : str;
  timeout : Z;
  output_key : option str
}.

(** The two entries of the module-level [TOOLS]. *)
Definition trufflehog_config : ToolConfig :=
  {| command := lit "trufflehog git --only-verified --json {repo_url}";
     timeout := 3600;
     output_key := None |}.

Definition gitleaks_config : ToolConfig :=
  {| command := lit "gitleaks detect --source {repo_dir} --no-git --exit-code 0 --report-format json";
     timeout := 600;
     output_key := Some (lit "Findings") |}.

Definition TOOLS : dict ToolConfig :=
  [ (lit "trufflehog", trufflehog_config); (lit "gitleaks", gitleaks_config) ].

(** ** The outside world *)

(** What the script does to the outside. *)
Inductive event :=
| Print (s : str)                       (* print(s) *)
| Clone (repo_url repo_dir : str)       (* Repo.clone_from(repo_url, repo_dir) *)
| Run (cmd : str) (seconds : Z)         (* subprocess.run(cmd, timeout=seconds) *)
| Submit (repo_url : str).              (* executor.submit(clone_and_scan, repo_url) *)

(** What one [clone_and_scan] task observes.  A subprocess answers by
    its command line: the commands of one task differ, as their
    templates do. *)
Record TaskWorld := {
  (* tempfile.TemporaryDirectory(): its name, or the exception raised *)
  mkdtemp : exn + str;
  (* Repo.clone_from(url, dir): the exception raised, if any *)
  clone_from : str -> str -> option exn;
  (* subprocess.run(command, timeout): stdout as text, or the exception *)
  subprocess_run : str -> Z -> exn + str;
  (* leaving the [with] block: the exception the removal raises, if any *)
  cleanup : option exn
}.

(** The per-repository result: [results] of [clone_and_scan]. *)
Record ScanResult := {
  findings : dict value;
  status : dict str;
  error : option str
}.

(** An entry of [global_report]: the dict a task returned, or the
    [{'error': str(e)}] of [main]'s handler. *)
Inductive entry :=
| Scanned (r : ScanResult)
| Failed (msg : str).

(** What a run of [main] observes. *)
Record World := {
  (* shutil.which(tool) *)
  shutil_which : str -> option str;
  (* the text of open(input_file, "r"), or the exception raised *)
  open_read : str -> exn + str;
  (* what the task submitted at position i observes *)
  task_world : nat -> TaskWorld;
  (* the pool's scheduling: which pending future completes next *)
  completion : list nat
}.

(** How [main] ends. *)
Inductive ending :=
| Returned
| SystemExit (code : Z)
| Uncaught (e : exn).

(** [bool(x)] for a string or [None]. *)
Definition truthy_opt (o : option str) : bool :=
  match o with Some s => nonempty s | None => false end.

(** ** Computations that may raise *)

Definition bindE {A B} (m : exn + A) (k : A -> exn + B) : exn + B :=
  match m with
  | inl e => inl e
  | inr a => k a
  end.

Notation "x <- m ;; k" := (bindE m (fun x => k))
  (at level 61, m at next level, right associativity).

(** ** The thread pool's completion order *)

Fixpoint remove_nth {A} (k : nat) (l : list A) : list A :=
  match l, k with
  | [], _ => []
  | _ :: l', O => l'
  | x :: l', S k' => x :: remove_nth k' l'
  end.

(** [n] steps of completion: the next choice, reduced modulo the number
    of pending futures, names the future that completes next. *)
Fixpoint complete {A} (n : nat) (choices : list nat) (pending : list A)
  : list A :=
  match n with
  | O => []
  | S n' =>
      let k := Nat.modulo (hd 0 choices) (length pending) in
      match nth_error pending k with
      | None => []
      | Some f => f :: complete n' (tl choices) (remove_nth k pending)
      end
  end.

(** [concurrent.futures.as_completed(pending)]: every future, in the
    order the scheduling completes them. *)
Definition as_completed {A} (choices : list nat) (pending : list A) : list A :=
  complete (length pending) choices pending.

(** ** Reading the input file *)

(** Text mode with universal newlines: "\r\n" and "\r" are read as "\n". *)
Fixpoint translate_newlines (s : str) : str :=
  match s with
  | [] => []
  | c :: rest =>
      if N.eqb c 13 then
        10%N :: match rest with
                | [] => []
                | c' :: rest' =>
                    if N.eqb c' 10 then translate_newlines rest'
                    else translate_newlines rest
                end
      else c :: translate_newlines rest
  end.

(** The lines a text file yields when iterated: each keeps its "\n". *)
Fixpoint file_lines (s : str) : list str :=
  match s with
  | [] => []
  | c :: rest =>
      if N.eqb c 10 then [c] :: file_lines rest
      else match file_lines rest with
           | [] => [[c]]
           | l :: ls => (c :: l) :: ls
           end
  end.

(** [[line.strip() for line in f if line.strip()]] *)
Definition read_repos (text : str) : list str :=
  map strip
    (filter (fun line => nonempty (strip line))
       (file_lines (translate_newlines text))).

(** ** Sample library functions, for the closed examples *)

Definition quoted (s : str) : str := 34%N :: s ++ [34%N].

(** [str.format(repo_dir=..., repo_url=...)] on a template whose only
    braces are those of the fields [{repo_dir}] and [{repo_url}], as in
    [TOOLS]. *)
Fixpoint format_from (repo_dir repo_url : str) (skip : nat) (s : str) : str :=
  match s with
  | [] => []
  | c :: s' =>
      match skip with
      | S k => format_from repo_dir repo_url k s'
      | O =>
          if startswith s (lit "{repo_dir}")
          then repo_dir ++ format_from repo_dir repo_url 9 s'
          else if startswith s (lit "{repo_url}")
          then repo_url ++ format_from repo_dir repo_url 9 s'
          else c :: format_from repo_dir repo_url 0 s'
      end
  end.

Definition format_fields (template repo_dir repo_url : str) : exn + str :=
  inr (format_from repo_dir repo_url 0 template).

(** [json.loads] on the lines the examples feed it. *)
Definition json_samples : dict value :=
  [ (lit "{" ++ quoted (lit "Findings") ++ lit ": [{"
       ++ quoted (lit "RuleID") ++ lit ": " ++ quoted (lit "X") ++ lit "}]}",
     VDict [(lit "Findings", VList [VDict [(lit "RuleID", VStr (lit "X"))]])]);
    (lit "{" ++ quoted (lit "Findings") ++ lit ": []}",
     VDict [(lit "Findings", VList [])]);
    (lit "{" ++ quoted (lit "Findings") ++ lit ": 5}",
     VDict [(lit "Findings", VInt 5)]);
    (lit "{" ++ quoted (lit "DetectorName") ++ lit ": "
       ++ quoted (lit "AWS") ++ lit "}",
     VDict [(lit "DetectorName", VStr (lit "AWS"))]);
    (lit "[1, 2]", VList [VInt 1; VInt 2]);
    (lit "7", VInt 7) ].

Definition json_loads_sample (line : str) : exn + value :=
  match dict_get json_samples line with
  | Some v => inr v
  | None =>
      inl (Exn JSONDecodeError (lit "Expecting value: line 1 column 1 (char 0)"))
  end.

(** [str.upper] on ASCII letters. *)
Definition ascii_upper (s : str) : str :=
  map (fun c => if ((97 <=? c) && (c <=? 122))%N then (c - 32)%N else c) s.

(** [str(v)] on the scalars; no example renders a float or a container. *)
Definition str_sample (v : value) : str :=
  match v with
  | VStr s => s
  | VInt z => lit (NilZero.string_of_int (Z.to_int z))
  | VNone => lit "None"
  | VBool true => lit "True"
  | VBool false => lit "False"
  | _ => lit "?"
  end.

(** ** Example worlds *)

Definition demo_url : str := lit "https://github.com/octocat/demo.git".

(** A task whose clone answers [cloned] and whose two scanners answer
    [truffle] and [leaks]. *)
Definition task_of (cloned : option exn) (truffle leaks : exn + str)
  : TaskWorld :=
  {| mkdtemp := inr (lit "/tmp/tmpk3x9");
     clone_from := fun _ _ => cloned;
     subprocess_run :=
       fun cmd _ => if startswith cmd (lit "trufflehog") then truffle else leaks;
     cleanup := None |}.

(** Both scanners print nothing. *)
Definition task_clean : TaskWorld := task_of None (inr []) (inr []).

(** trufflehog prints nothing; the output of gitleaks is not valid text. *)
Definition task_leaks_raises : TaskWorld :=
  task_of None (inr [])
    (inl (Exn OtherException
            (lit "'utf-8' codec can't decode byte 0xff in position 0: invalid start byte"))).

(** trufflehog exceeds its timeout; gitleaks reports one finding. *)
Definition task_timeout : TaskWorld :=
  task_of None
    (inl (Exn TimeoutExpired (lit "Command timed out after 3600 seconds")))
    (inr (lit "{" ++ quoted (lit "Findings") ++ lit ": [{"
            ++ quoted (lit "RuleID") ++ lit ": " ++ quoted (lit "X")
            ++ lit "}]}")).

(** The clone fails. *)
Definition task_clone_fails : TaskWorld :=
  task_of (Some (Exn OtherException (lit "Cmd('git') failed due to: exit code(128)")))
    (inr []) (inr []).

(** trufflehog prints one finding and then a line that is not JSON. *)
Definition task_bad_json : TaskWorld :=
  task_of None
    (inr (lit "{" ++ quoted (lit "DetectorName") ++ lit ": "
            ++ quoted (lit "AWS") ++ lit "}" ++ 10%N :: lit "oops"))
    (inr []).

(** gitleaks prints a top-level array. *)
Definition task_array : TaskWorld :=
  task_of None (inr []) (inr (lit "[1, 2]")).

(** gitleaks prints a report whose "Findings" is a number. *)
Definition task_number : TaskWorld :=
  task_of None (inr [])
    (inr (lit "{" ++ quoted (lit "Findings") ++ lit ": 5}")).

(** A run over a file that lists [demo_url] twice, around a blank line:
    the first task's clone fails, the second finds nothing, and the
    second task is the first to complete. *)
Definition world_twice : World :=
  {| shutil_which := fun tool => Some (lit "/usr/bin/" ++ tool);
     open_read :=
       fun _ => inr (lit "  " ++ demo_url ++ [13%N; 10%N; 10%N]
                       ++ demo_url ++ [10%N]);
     task_world := fun i => match i with O => task_clone_fails | _ => task_clean end;
     completion := [1] |}.

(** A run on a host where gitleaks is not installed. *)
Definition world_no_gitleaks : World :=
  {| shutil_which :=
       fun tool => if str_eqb tool (lit "gitleaks") then None
                   else Some (lit "/usr/bin/" ++ tool);
     open_read := fun _ => inr demo_url;
     task_world := fun _ => task_clean;
     completion := [] |}.

Definition demo_tmp : str := lit "/tmp/tmpk3x9".
Definition demo_dir : str := lit "/tmp/tmpk3x9/demo".

(** The commands of the two tools for [demo_url] cloned into [demo_dir]. *)
Definition trufflehog_cmd : str :=
  lit "trufflehog git --only-verified --json https://github.com/octocat/demo.git".

Definition gitleaks_cmd : str :=
  lit "gitleaks detect --source /tmp/tmpk3x9/demo --no-git --exit-code 0 --report-format json".

(** A run whose only task sees gitleaks fail after trufflehog found
    nothing. *)
Definition world_leaks_raises : World :=
  {| shutil_which := fun tool => Some (lit "/usr/bin/" ++ tool);
     open_read := fun _ => inr demo_url;
     task_world := fun _ => task_leaks_raises;
     completion := [] |}.

(** ** Further examples *)

Definition other_url : str := lit "https://github.com/octocat/other".

Definition timeout_error : exn :=
  Exn TimeoutExpired (lit "Command timed out after 3600 seconds").

(** Both scanners exceed their timeout. *)
Definition task_all_timeout : TaskWorld :=
  task_of None (inl timeout_error) (inl timeout_error).

(** The result of that task. *)
Definition result_timed_out : ScanResult :=
  {| findings := [(lit "trufflehog", VStr (lit "timeout"));
                  (lit "gitleaks", VStr (lit "timeout"))];
     status := [(lit "trufflehog", lit "Timed out");
                (lit "gitleaks", lit "Timed out")];
     error := None |}.

(** The result of [task_clone_fails]. *)
Definition result_clone_failed : ScanResult :=
  {| findings := []; status := [];
     error := Some (lit "Clone failed: " ++ demo_url) |}.

(** The result of [task_number]. *)
Definition result_number : ScanResult :=
  {| findings := [(lit "trufflehog", VNone); (lit "gitleaks", VInt 5)];
     status := [(lit "trufflehog", lit "Clean")];
     error := Some (lit "Error scanning " ++ demo_url
                      ++ lit ": object of type 'int' has no len()") |}.

(** One secret and one leak, as the tools document them. *)
Definition one_secret : value := VDict [(lit "DetectorName", VStr (lit "AWS"))].
Definition one_leak : value := VDict [(lit "RuleID", VStr (lit "X"))].

Definition result_found : ScanResult :=
  {| findings := [(lit "trufflehog", VList [one_secret]);
                  (lit "gitleaks", VList [one_leak])];
     status := [(lit "trufflehog", lit "1 findings");
                (lit "gitleaks", lit "1 findings")];
     error := None |}.

(** trufflehog prints the same secret on two lines, a blank between. *)
Definition secret_line : str :=
  lit "{" ++ quoted (lit "DetectorName") ++ lit ": "
    ++ quoted (lit "AWS") ++ lit "}".

Definition task_two_secrets : TaskWorld :=
  task_of None (inr (secret_line ++ [10%N; 10%N] ++ secret_line ++ [10%N]))
    (inr []).

(** gitleaks prints only blanks. *)
Definition task_blank_output : TaskWorld :=
  task_of None (inr []) (inr [32%N; 10%N; 9%N]).

(** [json.loads] on one more line: a report whose "Findings" is the
    string "timeout". *)
Definition timeout_report_line : str :=
  lit "{" ++ quoted (lit "Findings") ++ lit ": "
    ++ quoted (lit "timeout") ++ lit "}".

Definition json_loads_more (line : str) : exn + value :=
  if str_eqb line timeout_report_line
  then inr (VDict [(lit "Findings", VStr (lit "timeout"))])
  else json_loads_sample line.

Definition task_timeout_string : TaskWorld :=
  task_of None (inr []) (inr timeout_report_line).

(** A run over one URL on a host with both tools. *)
Definition world_of (text : str) (task : TaskWorld) (order : list nat) : World :=
  {| shutil_which := fun tool => Some (lit "/usr/bin/" ++ tool);
     open_read := fun _ => inr text;
     task_world := fun _ => task;
     completion := order |}.

Definition world_number : World := world_of demo_url task_number [].
Definition world_quiet : World := world_of demo_url task_all_timeout [].
Definition world_blank_file : World :=
  world_of [10%N; 32%N; 32%N; 13%N; 10%N] task_clean [].
Definition world_two_urls : World :=
  world_of (demo_url ++ 10%N :: other_url) task_clean [1].

(** ** The script *)

Section Scanner.

(** [json.loads(line)] *)
Variable json_loads : str -> exn + value.
(** [template.format(repo_dir=repo_dir, repo_url=repo_url)] *)
Variable str_format : str -> str -> str -> exn + str.
(** [s.upper()] *)
Variable str_upper : str -> str.
(** [str(v)], as an f-string renders a value *)
Variable py_str : value -> str.
(** The registry the functions read; [TOOLS] in the script. *)
Variable tools : dict ToolConfig.

(** [[tool for tool in TOOLS if not shutil.which(tool)]] *)
Definition missing_tools (W : World) : list str :=
  filter (fun tool => negb (truthy_opt (shutil_which W tool))) (keys tools).

(** [check_tools_installed]: the events, and the code of [exit] if called. *)
Definition check_tools_installed (W : World) : list event * option Z :=
  match missing_tools W with
  | [] => ([], None)
  | _ :: _ =>
      ([Print (Fore_RED ++ lit "Missing tools: "
                 ++ join (lit ", ") (missing_tools W))],
       Some 1%Z)
  end.

(** [repo_url.split("/")[-1].replace(".git", "")] *)
Definition repo_name (repo_url : str) : str :=
  replace (lit ".git") [] (last (split 47%N repo_url) []).

(** [clone_repo]: the directory, or [None] after a failed clone. *)
Definition clone_repo (w : TaskWorld) (repo_url temp_dir : str)
  : list event * option str :=
  let repo_dir := path_join temp_dir (repo_name repo_url) in
  match clone_from w repo_url repo_dir with
  | None => ([Clone repo_url repo_dir], Some repo_dir)
  | Some e =>
      ([Clone repo_url repo_dir;
        Print (Fore_RED ++ lit "Clone failed: " ++ repo_url);
        Print (Fore_YELLOW ++ lit "Error: " ++ str_of_exn e)],
       None)
  end.

(** The loop of [run_tool] over the lines of stdout; an exception comes
    with the [line] it left bound. *)
Fixpoint decode_lines (lines : list str) (output : list value)
  : exn * str + list value :=
  match lines with
  | [] => inr output
  | line :: rest =>
      if nonempty (strip line) then
        match json_loads line with
        | inl e => inl (e, line)
        | inr parsed_line => decode_lines rest (output ++ [parsed_line])
        end
      else decode_lines rest output
  end.

(** [output = []] and the [if result.stdout.strip():] block. *)
Definition decode_stdout (stdout : str) : exn * str + list value :=
  if nonempty (strip stdout)
  then decode_lines (split 10%N (strip stdout)) []
  else inr [].

(** [for key in keys: data = data.get(key, {})] *)
Fixpoint walk_keys (ks : list str) (data : value) : exn + value :=
  match ks with
  | [] => inr data
  | key :: ks' =>
      data' <- py_get data key (VDict []) ;;
      walk_keys ks' data'
  end.

(** The [if output_key:] block and the final [return] of [run_tool]. *)
Definition select_output (key : option str) (output : list value)
  : exn + value :=
  if truthy_opt key then
    let data := match output with v :: _ => v | [] => VDict [] end in
    match walk_keys (split 46%N (match key with Some k => k | None => [] end)) data with
    | inr data' => inr (if truthy data' then data' else VNone)
    | inl e => if is_AttributeError e then inr (VList []) else inl e
    end
  else inr (match output with [] => VNone | _ :: _ => VList output end).

(** [run_tool] *)
Definition run_tool (w : TaskWorld) (tool_name command repo_dir repo_url : str)
  : list event * (exn + value) :=
  match dict_get tools tool_name with
  | None => ([], inl (Exn KeyError (lit "'" ++ tool_name ++ lit "'")))
  | Some config =>
      let ran := Run command (timeout config) in
      match subprocess_run w command (timeout config) with
      | inl e =>
          if is_TimeoutExpired e
          then ([ran; Print (Fore_YELLOW ++ tool_name ++ lit " timed out")],
                inr (VStr (lit "timeout")))
          else ([ran], inl e)
      | inr stdout =>
          match decode_stdout stdout with
          | inl (e, line) =>
              if is_JSONDecodeError e
              then ([ran;
                     Print (Fore_YELLOW ++ tool_name ++ lit " JSON error: "
                              ++ str_of_exn e ++ lit " (line: "
                              ++ prefix 200 line ++ lit ")")],
                    inr VNone)
              else ([ran], inl e)
          | inr output => ([ran], select_output (output_key config) output)
          end
      end
  end.

(** The status expression of [clone_and_scan]. *)
Definition status_of (tool_results : value) : exn + str :=
  if is_timeout tool_results then inr (lit "Timed out")
  else if truthy tool_results then
    n <- py_len tool_results ;;
    inr (str_of_nat n ++ lit " findings")
  else inr (lit "Clean").

Definition set_findings (r : ScanResult) (tool : str) (v : value) :=
  {| findings := dict_set (findings r) tool v;
     status := status r; error := error r |}.

Definition set_status (r : ScanResult) (tool : str) (s : str) :=
  {| findings := findings r;
     status := dict_set (status r) tool s; error := error r |}.

Definition set_error (r : ScanResult) (msg : str) :=
  {| findings := findings r; status := status r; error := Some msg |}.

(** The [for tool, config in TOOLS.items()] loop: [results] as the loop
    leaves it, and the exception that ended it, if any. *)
Fixpoint scan_tools (w : TaskWorld) (repo_url repo_dir : str)
  (items : list (str * ToolConfig)) (results : ScanResult)
  : list event * (ScanResult * option exn) :=
  match items with
  | [] => ([], (results, None))
  | (tool, config) :: rest =>
      match str_format (command config) repo_dir repo_url with
      | inl e => ([], (results, Some e))
      | inr cmd =>
          match run_tool w tool cmd repo_dir repo_url with
          | (tr, inl e) => (tr, (results, Some e))
          | (tr, inr tool_results) =>
              let results1 := set_findings results tool tool_results in
              match status_of tool_results with
              | inl e => (tr, (results1, Some e))
              | inr s =>
                  let (tr', out) :=
                    scan_tools w repo_url repo_dir rest
                      (set_status results1 tool s) in
                  (tr ++ tr', out)
              end
          end
      end
  end.

(** The [try] block of [clone_and_scan]. *)
Definition scan_body (w : TaskWorld) (repo_url : str) (results : ScanResult)
  : list event * (ScanResult * option exn) :=
  match mkdtemp w with
  | inl e => ([], (results, Some e))
  | inr temp_dir =>
      let (tr, cloned) := clone_repo w repo_url temp_dir in
      let '(tr', (results', raised)) :=
        match cloned with
        | Some repo_dir =>
            if nonempty repo_dir
            then scan_tools w repo_url repo_dir tools results
            else ([], (set_error results (lit "Clone failed: " ++ repo_url), None))
        | None =>
            ([], (set_error results (lit "Clone failed: " ++ repo_url), None))
        end in
      match cleanup w with
      | Some e => (tr ++ tr', (results', Some e))
      | None => (tr ++ tr', (results', raised))
      end
  end.

(** [results] as [clone_and_scan] creates it. *)
Definition no_results : ScanResult :=
  {| findings := []; status := []; error := None |}.

(** [clone_and_scan] *)
Definition clone_and_scan (w : TaskWorld) (repo_url : str)
  : list event * ScanResult :=
  let '(tr, (results', raised)) := scan_body w repo_url no_results in
  match raised with
  | Some e =>
      (tr, set_error results'
             (lit "Error scanning " ++ repo_url ++ lit ": " ++ str_of_exn e))
  | None => (tr, results')
  end.

(** [for x in v]: the items the loop visits. *)
Definition py_iter (v : value) : exn + list value :=
  match v with
  | VList l => inr l
  | VDict d => inr (map (fun kv => VStr (fst kv)) d)
  | VStr s => inr (map (fun c => VStr [c]) s)
  | _ => inl (Exn TypeError
                (lit "'" ++ type_name v ++ lit "' object is not iterable"))
  end.

Definition NA : value := VStr (lit "N/A").

(** The three lines of one trufflehog secret. *)
Definition secret_lines (secret : value) : exn + list str :=
  name <- py_get secret (lit "DetectorName") NA ;;
  m1 <- py_get secret (lit "SourceMetadata") (VDict []) ;;
  m2 <- py_get m1 (lit "Data") (VDict []) ;;
  metadata <- py_get m2 (lit "Git") (VDict []) ;;
  file <- py_get metadata (lit "file") NA ;;
  commit <- py_get metadata (lit "commit") NA ;;
  inr [Fore_RED ++ lit "Secret: " ++ py_str name;
       Fore_WHITE ++ lit "File: " ++ py_str file;
       Fore_WHITE ++ lit "Commit: " ++ py_str commit].

(** The two lines of one gitleaks leak. *)
Definition leak_lines (leak : value) : exn + list str :=
  rule <- py_get leak (lit "RuleID") NA ;;
  file <- py_get leak (lit "File") NA ;;
  line <- py_get leak (lit "StartLine") NA ;;
  inr [Fore_RED ++ lit "Leak: " ++ py_str rule;
       Fore_WHITE ++ lit "File: " ++ py_str file ++ lit ":" ++ py_str line].

Fixpoint concat_lines (f : value -> exn + list str) (l : list value)
  : exn + list str :=
  match l with
  | [] => inr []
  | x :: l' =>
      here <- f x ;;
      rest <- concat_lines f l' ;;
      inr (here ++ rest)
  end.

(** The loop over [data['findings'].items()] of [format_report]. *)
Fixpoint tool_sections (items : list (str * value)) : exn + list str :=
  match items with
  | [] => inr []
  | (tool, found) :: rest =>
      if negb (truthy found) || is_timeout found then tool_sections rest
      else
        body <-
          (if str_eqb tool (lit "trufflehog")
           then (l <- py_iter found ;; concat_lines secret_lines l)
           else if str_eqb tool (lit "gitleaks")
           then (l <- py_iter found ;; concat_lines leak_lines l)
           else inr []) ;;
        rest' <- tool_sections rest ;;
        inr ((Fore_YELLOW ++ 10%N :: str_upper tool ++ lit " Findings:")
               :: body ++ rest')
  end.

(** One iteration of the loop over [global_report.items()]:
    [repo_has_findings] and [repo_output]. *)
Definition repo_section (repo_url : str) (data : entry)
  : exn + bool * list str :=
  match data with
  | Failed _ => inl (Exn KeyError (lit "'status'"))
  | Scanned r =>
      let err_lines :=
        match error r with
        | Some msg =>
            if nonempty msg
            then [Fore_RED ++ 10%N :: lit "ERROR: " ++ msg]
            else []
        | None => []
        end in
      let found :=
        existsb
          (fun ts =>
             match dict_get (findings r) (fst ts) with
             | Some v => truthy v && negb (is_timeout v)
             | None => false
             end)
          (status r) in
      let header :=
        if found
        then [Fore_CYAN ++ 10%N :: repo_url; Fore_WHITE ++ repeat 45%N 50]
        else [] in
      if truthy_opt (error r) || found then
        sections <- tool_sections (findings r) ;;
        inr (true, err_lines ++ header ++ sections)
      else inr (false, [])
  end.

Fixpoint report_lines (items : list (str * entry)) : exn + bool * list str :=
  match items with
  | [] => inr (false, [])
  | (repo_url, data) :: rest =>
      here <- repo_section repo_url data ;;
      more <- report_lines rest ;;
      inr (fst here || fst more, snd here ++ snd more)
  end.

(** [format_report] *)
Definition format_report (global_report : dict entry) : exn + str :=
  r <- report_lines global_report ;;
  if fst r then inr (join [10%N] (snd r))
  else inr (Fore_GREEN ++ 10%N :: lit "No findings across all repositories").

(** A future of the pool: the task's argument, what it did and the
    outcome [future.result()] gives. *)
Record future := {
  fut_url : str;
  fut_events : list event;
  fut_result : exn + ScanResult
}.

(** [executor.submit(clone_and_scan, url)] for the task at position [i]. *)
Definition submit (W : World) (i : nat) (url : str) : future :=
  let (tr, r) := clone_and_scan (task_world W i) url in
  {| fut_url := url; fut_events := tr; fut_result := inr r |}.

Fixpoint submit_all (W : World) (i : nat) (repos : list str) : list future :=
  match repos with
  | [] => []
  | url :: rest => submit W i url :: submit_all W (S i) rest
  end.

(** The body of the [as_completed] loop. *)
Definition record_result (global_report : dict entry) (f : future)
  : dict entry :=
  match fut_result f with
  | inr result => dict_set global_report (fut_url f) (Scanned result)
  | inl e => dict_set global_report (fut_url f) (Failed (str_of_exn e))
  end.

(** [global_report] once the pool is drained. *)
Definition collect (W : World) (repos : list str) : dict entry :=
  fold_left record_result (as_completed (completion W) (submit_all W 0 repos)) [].

(** [main].  In the trace the submissions come first and the events of
    a task stand where the task completes. *)
Definition main (W : World) (input_file : str) : list event * ending :=
  match check_tools_installed W with
  | (tr, Some code) => (tr, SystemExit code)
  | (tr, None) =>
      match open_read W input_file with
      | inl e => (tr, Uncaught e)
      | inr text =>
          let repos := read_repos text in
          let done := as_completed (completion W) (submit_all W 0 repos) in
          let tr' := tr ++ map Submit repos ++ flat_map fut_events done in
          match format_report (collect W repos) with
          | inl e => (tr', Uncaught e)
          | inr report_body => (tr' ++ [Print report_body], Returned)
          end
      end
  end.

(** ** The specification's side *)

(** The three-way labelling rule, as the specification words it. *)
Inductive status_rule : value -> str -> Prop :=
| rule_timed_out :
    status_rule (VStr (lit "timeout")) (lit "Timed out")
| rule_findings v count :
    v <> VStr (lit "timeout") ->
    truthy v = true ->
    py_len v = inr count ->
    status_rule v (str_of_nat count ++ lit " findings")
| rule_clean v :
    v <> VStr (lit "timeout") ->
    truthy v = false ->
    status_rule v (lit "Clean").

(** Walking a key path through nested JSON objects, a missing key
    standing for the empty object; undefined where the value reached is
    not an object. *)
Fixpoint walk_objects (path : list str) (data : value) : option value :=
  match path with
  | [] => Some data
  | key :: path' =>
      match data with
      | VDict d =>
          walk_objects path'
            (match dict_get d key with Some x => x | None => VDict [] end)
      | _ => None
      end
  end.

(** The URLs handed to the pool, as a trace shows them. *)
Fixpoint submitted (tr : list event) : list str :=
  match tr with
  | [] => []
  | Submit url :: tr' => url :: submitted tr'
  | _ :: tr' => submitted tr'
  end.

(** The commands run, as a trace shows them. *)
Fixpoint commands_run (tr : list event) : list str :=
  match tr with
  | [] => []
  | Run cmd _ :: tr' => cmd :: commands_run tr'
  | _ :: tr' => commands_run tr'
  end.

(** What [results] holds for the tools whose status is recorded. *)
Definition recorded (w : TaskWorld) (repo_url repo_dir : str)
  (r : ScanResult) : Prop :=
  forall tool s,
    dict_get (status r) tool = Some s ->
    exists config cmd tr v,
      dict_get tools tool = Some config /\
      str_format (command config) repo_dir repo_url = inr cmd /\
      run_tool w tool cmd repo_dir repo_url = (tr, inr v) /\
      dict_get (findings r) tool = Some v /\
      status_of v = inr s.

(** The entry the [as_completed] loop stores for a future. *)
Definition entry_of (f : future) : entry :=
  match fut_result f with
  | inr result => Scanned result
  | inl e => Failed (str_of_exn e)
  end.

(** A result that gives the report nothing to show: no error, and for
    every tool with a status a value that is empty or the timeout
    sentinel. *)
Definition quiet (r : ScanResult) : Prop :=
  truthy_opt (error r) = false /\
  forall tool v,
    In tool (keys (status r)) ->
    dict_get (findings r) tool = Some v ->
    truthy v = false \/ v = VStr (lit "timeout").

(** The text [format_report] returns when nothing was found. *)
Definition all_clean_message : str :=
  Fore_GREEN ++ 10%N :: lit "No findings across all repositories".

(** The line [format_report] writes for a recorded error. *)
Definition error_line (msg : str) : str :=
  Fore_RED ++ 10%N :: lit "ERROR: " ++ msg.

(** A JSON object. *)
Definition is_object (v : value) : Prop := exists d, v = VDict d.

(** A secret the reporter can render: an object whose "SourceMetadata",
    the "Data" under it and the "Git" under that are objects wherever
    they are present. *)
Definition secret_object (secret : value) : Prop :=
  is_object secret /\
  forall m1, py_get secret (lit "SourceMetadata") (VDict []) = inr m1 ->
    is_object m1 /\
    forall m2, py_get m1 (lit "Data") (VDict []) = inr m2 ->
      is_object m2 /\
      forall m3, py_get m2 (lit "Git") (VDict []) = inr m3 -> is_object m3.

(** Findings in the shape the two tools document: for trufflehog a list
    of secrets, for gitleaks a list of objects; an empty value or the
    timeout sentinel for either. *)
Definition documented_findings (tool : str) (v : value) : Prop :=
  truthy v = false \/ v = VStr (lit "timeout") \/
  ((tool = lit "trufflehog" ->
    exists l, v = VList l /\ Forall secret_object l) /\
   (tool = lit "gitleaks" ->
    exists l, v = VList l /\ Forall is_object l)).

(** The header the reporter writes for a repository with findings. *)
Definition repo_header (repo_url : str) : str := Fore_CYAN ++ 10%N :: repo_url.

(** What the tool loop records, as lists: the status and the findings
    of each tool that returned, in the order run, up to the first tool
    at which an exception is raised; a tool whose value has no status
    still leaves its findings. *)
Inductive tool_records (w : TaskWorld) (repo_url repo_dir : str)
  : list (str * ToolConfig) -> dict str -> dict value -> option exn -> Prop :=
| records_done :
    tool_records w repo_url repo_dir [] [] [] None
| records_format_raises tool config rest e :
    str_format (command config) repo_dir repo_url = inl e ->
    tool_records w repo_url repo_dir ((tool, config) :: rest) [] [] (Some e)
| records_run_raises tool config rest cmd tr e :
    str_format (command config) repo_dir repo_url = inr cmd ->
    run_tool w tool cmd repo_dir repo_url = (tr, inl e) ->
    tool_records w repo_url repo_dir ((tool, config) :: rest) [] [] (Some e)
| records_status_raises tool config rest cmd tr v e :
    str_format (command config) repo_dir repo_url = inr cmd ->
    run_tool w tool cmd repo_dir repo_url = (tr, inr v) ->
    status_of v = inl e ->
    tool_records w repo_url repo_dir ((tool, config) :: rest)
      [] [(tool, v)] (Some e)
| records_next tool config rest cmd tr v s st fd raised :
    str_format (command config) repo_dir repo_url = inr cmd ->
    run_tool w tool cmd repo_dir repo_url = (tr, inr v) ->
    status_of v = inr s ->
    tool_records w repo_url repo_dir rest st fd raised ->
    tool_records w repo_url repo_dir ((tool, config) :: rest)
      ((tool, s) :: st) ((tool, v) :: fd) raised.

(** ** Strings and dictionaries: basic facts *)

Lemma str_eqb_eq (a b : str) : str_eqb a b = true <-> a = b.
Proof.
  revert b; induction a as [|x a IH]; intros [|y b]; simpl;
    try (split; [discriminate | discriminate]); try (split; reflexivity).
  rewrite andb_true_iff, N.eqb_eq, IH.
  split; [intros [-> ->]; reflexivity | intros H; inversion H; auto].
Qed.

Lemma str_eqb_refl (a : str) : str_eqb a a = true.
Proof. apply str_eqb_eq; reflexivity. Qed.

Lemma str_eqb_neq (a b : str) : str_eqb a b = false <-> a <> b.
Proof.
  rewrite <- str_eqb_eq. destruct (str_eqb a b); split; congruence.
Qed.

Lemma str_eq_dec (a b : str) : {a = b} + {a <> b}.
Proof. apply (list_eq_dec N.eq_dec). Defined.

Lemma dict_get_set_eq {V} (d : dict V) k v :
  dict_get (dict_set d k v) k = Some v.
Proof.
  induction d as [|[k' v'] d IH]; simpl.
  - now rewrite str_eqb_refl.
  - destruct (str_eqb k' k) eqn:E; simpl; rewrite E; auto.
Qed.

Lemma dict_get_set_ne {V} (d : dict V) k k' v :
  k <> k' -> dict_get (dict_set d k v) k' = dict_get d k'.
Proof.
  intros Hne. induction d as [|[k0 v0] d IH]; simpl.
  - apply str_eqb_neq in Hne. now rewrite Hne.
  - destruct (str_eqb k0 k) eqn:E; simpl.
    + apply str_eqb_eq in E; subst k0.
      apply str_eqb_neq in Hne. now rewrite Hne.
    + destruct (str_eqb k0 k'); auto.
Qed.

Lemma dict_get_None {V} (d : dict V) k :
  dict_get d k = None <-> ~ In k (keys d).
Proof.
  induction d as [|[k' v'] d IH]; simpl;
    [split; [intros _ [] | reflexivity]|].
  destruct (str_eqb k' k) eqn:E.
  - apply str_eqb_eq in E. split; [discriminate | intros H; exfalso; auto].
  - apply str_eqb_neq in E. rewrite IH.
    split; [intros H [Hk|Hk]; [contradiction | auto] | auto].
Qed.

Lemma dict_get_In {V} (d : dict V) k v :
  NoDup (keys d) -> In (k, v) d -> dict_get d k = Some v.
Proof.
  induction d as [|[k' v'] d IH]; simpl; [intros _ []|].
  intros Hnd [Heq | Hin].
  - inversion Heq; subst. now rewrite str_eqb_refl.
  - inversion Hnd as [|? ? Hnot Hnd']; subst.
    destruct (str_eqb k' k) eqn:E; auto.
    apply str_eqb_eq in E; subst k'. exfalso; apply Hnot.
    change k with (fst (k, v)). now apply in_map.
Qed.

Lemma keys_set_new {V} (d : dict V) k v :
  ~ In k (keys d) -> keys (dict_set d k v) = keys d ++ [k].
Proof.
  induction d as [|[k' v'] d IH]; simpl; auto.
  intros Hnot. destruct (str_eqb k' k) eqn:E.
  - apply str_eqb_eq in E. exfalso; auto.
  - simpl. f_equal. apply IH. auto.
Qed.

Lemma keys_set_old {V} (d : dict V) k v :
  In k (keys d) -> keys (dict_set d k v) = keys d.
Proof.
  induction d as [|[k' v'] d IH]; simpl; [intros []|].
  intros Hin. destruct (str_eqb k' k) eqn:E; simpl; auto.
  f_equal. apply IH. destruct Hin as [H|H]; auto.
  apply str_eqb_neq in E. contradiction.
Qed.

Lemma keys_set_NoDup {V} (d : dict V) k v :
  NoDup (keys d) -> NoDup (keys (dict_set d k v)).
Proof.
  intros Hnd. destruct (in_dec str_eq_dec k (keys d)) as [Hin|Hnot].
  - now rewrite keys_set_old.
  - rewrite keys_set_new by assumption.
    apply NoDup_app; auto.
    + constructor; [intros [] | constructor].
    + intros x Hx [Hk|[]]. subst. contradiction.
Qed.

Lemma keys_set_In {V} (d : dict V) k v x :
  In x (keys (dict_set d k v)) <-> x = k \/ In x (keys d).
Proof.
  destruct (in_dec str_eq_dec k (keys d)) as [Hin|Hnot].
  - rewrite keys_set_old by assumption. split; [now right|].
    intros [->|]; auto.
  - rewrite keys_set_new, in_app_iff by assumption. simpl.
    split; [intros [H|[H|[]]]; auto | intros [->|H]; auto].
Qed.

(** ** The status of a (repository, tool) pair *)

Lemma is_timeout_eq (v : value) :
  is_timeout v = true <-> v = VStr (lit "timeout").
Proof.
  destruct v; simpl; try (split; [discriminate | discriminate]).
  rewrite str_eqb_eq. split; [intros ->; reflexivity | congruence].
Qed.

Lemma last_app_nonempty {A} (a b : list A) (d : A) :
  b <> [] -> last (a ++ b) d = last b d.
Proof.
  intros Hb. induction a as [|x a IH]; simpl; auto.
  destruct (a ++ b) eqn:E; auto.
  destruct a; simpl in E; [contradiction | discriminate].
Qed.

Lemma count_not_timed_out (n : nat) :
  lit "Timed out" <> str_of_nat n ++ lit " findings".
Proof.
  intros H. apply (f_equal (fun s => last s 0%N)) in H.
  rewrite last_app_nonempty in H by discriminate. discriminate H.
Qed.

Lemma count_not_clean (n : nat) :
  lit "Clean" <> str_of_nat n ++ lit " findings".
Proof.
  intros H. apply (f_equal (fun s => last s 0%N)) in H.
  rewrite last_app_nonempty in H by discriminate. discriminate H.
Qed.

(** The status expression of the script computes the specification's rule. *)
Lemma status_of_rule (v : value) (s : str) :
  status_of v = inr s <-> status_rule v s.
Proof.
  unfold status_of. split.
  - destruct (is_timeout v) eqn:Et.
    + apply is_timeout_eq in Et; subst v. intros H; inversion H. constructor.
    + assert (Hne : v <> VStr (lit "timeout")).
      { intros Hv. apply is_timeout_eq in Hv. congruence. }
      destruct (truthy v) eqn:Ev.
      * destruct (py_len v) as [e|n] eqn:El; simpl; intros H; inversion H.
        now apply rule_findings.
      * intros H; inversion H. now apply rule_clean.
  - intros H. destruct H as [|v n Hne Ht Hl|v Hne Ht].
    + reflexivity.
    + destruct (is_timeout v) eqn:Et.
      * apply is_timeout_eq in Et. contradiction.
      * rewrite Ht, Hl. reflexivity.
    + destruct (is_timeout v) eqn:Et.
      * apply is_timeout_eq in Et. contradiction.
      * rewrite Ht. reflexivity.
Qed.

Lemma recorded_set_findings w repo_url repo_dir r tool v :
  dict_get (status r) tool = None ->
  recorded w repo_url repo_dir r ->
  recorded w repo_url repo_dir (set_findings r tool v).
Proof.
  intros Hnone Hrec t s Hs. simpl in Hs.
  destruct (Hrec t s Hs) as (config & cmd & tr & v' & H1 & H2 & H3 & H4 & H5).
  exists config, cmd, tr, v'. repeat split; auto.
  simpl. rewrite dict_get_set_ne; auto. congruence.
Qed.

Lemma scan_tools_recorded w repo_url repo_dir :
  forall items results tr r' raised,
    (forall tool config, In (tool, config) items ->
                         dict_get tools tool = Some config) ->
    NoDup (keys items) ->
    (forall t, In t (keys items) -> dict_get (status results) t = None) ->
    recorded w repo_url repo_dir results ->
    scan_tools w repo_url repo_dir items results = (tr, (r', raised)) ->
    recorded w repo_url repo_dir r'.
Proof.
  induction items as [|[tool config] rest IH];
    intros results tr r' raised Hreg Hnd Hfresh Hrec Hrun; simpl in Hrun.
  - inversion Hrun; subst; assumption.
  - inversion Hnd as [|? ? Hnotin Hnd']; subst.
    assert (Hnone : dict_get (status results) tool = None)
      by (apply Hfresh; simpl; auto).
    destruct (str_format (command config) repo_dir repo_url) as [e|cmd] eqn:Ef.
    { inversion Hrun; subst; assumption. }
    destruct (run_tool w tool cmd repo_dir repo_url) as [tr0 [e|v]] eqn:Er.
    { inversion Hrun; subst; assumption. }
    destruct (status_of v) as [e|s] eqn:Es.
    { inversion Hrun; subst. now apply recorded_set_findings. }
    destruct (scan_tools w repo_url repo_dir rest
                (set_status (set_findings results tool v) tool s))
      as [tr' [r'' raised'']] eqn:Erest.
    inversion Hrun; subst.
    eapply IH; [ | exact Hnd' | | | exact Erest].
    + intros t c Hin. apply Hreg. simpl; auto.
    + intros t Hin. simpl. rewrite dict_get_set_ne.
      * apply Hfresh. simpl; auto.
      * intros ->. contradiction.
    + intros t s' Hs'. simpl in Hs'.
      destruct (str_eq_dec tool t) as [->|Hne].
      * rewrite dict_get_set_eq in Hs'. inversion Hs'; subst s'.
        exists config, cmd, tr0, v. repeat split; auto.
        -- apply Hreg. simpl; auto.
        -- simpl. apply dict_get_set_eq.
      * rewrite dict_get_set_ne in Hs' by assumption.
        destruct (Hrec t s' Hs')
          as (config' & cmd' & tr1 & v' & H1 & H2 & H3 & H4 & H5).
        exists config', cmd', tr1, v'. repeat split; auto.
        simpl. rewrite dict_get_set_ne; auto.
Qed.

(** The maps of a task's result are empty, or those the tool loop left. *)
Lemma clone_and_scan_maps (w : TaskWorld) (repo_url : str) :
  let r := snd (clone_and_scan w repo_url) in
  (findings r = [] /\ status r = []) \/
  (exists repo_dir tr r0 raised,
      scan_tools w repo_url repo_dir tools
        no_results = (tr, (r0, raised)) /\
      findings r = findings r0 /\ status r = status r0).
Proof.
  unfold clone_and_scan, scan_body, clone_repo.
  destruct (mkdtemp w) as [e|temp_dir]; [left; split; reflexivity|].
  destruct (clone_from w repo_url (path_join temp_dir (repo_name repo_url)))
    as [e|].
  - left. destruct (cleanup w); split; reflexivity.
  - destruct (nonempty (path_join temp_dir (repo_name repo_url))).
    + right.
      destruct (scan_tools w repo_url (path_join temp_dir (repo_name repo_url))
                  tools no_results)
        as [tr [r0 raised]] eqn:Es.
      exists (path_join temp_dir (repo_name repo_url)), tr, r0, raised.
      split; [exact Es|].
      destruct (cleanup w); [split; reflexivity|].
      destruct raised; split; reflexivity.
    + left. destruct (cleanup w); split; reflexivity.
Qed.

(** C1. For every (repository, tool) pair whose status is recorded, the
    status is derived from the value [run_tool] returned for that pair,
    which is the one kept in [findings], by the three-way rule: "Timed
    out" for the timeout sentinel, the count of a non-empty value
    followed by " findings", "Clean" otherwise.  A tool whose subprocess
    timed out returns the sentinel, and its status is "Timed out",
    neither "Clean" nor a finding count. *)
Theorem status_three_way_rule :
  forall (w : TaskWorld) (repo_url tool s : str),
    NoDup (keys tools) ->
    dict_get (status (snd (clone_and_scan w repo_url))) tool = Some s ->
    exists config repo_dir cmd tr v,
      dict_get tools tool = Some config /\
      str_format (command config) repo_dir repo_url = inr cmd /\
      run_tool w tool cmd repo_dir repo_url = (tr, inr v) /\
      dict_get (findings (snd (clone_and_scan w repo_url))) tool = Some v /\
      status_rule v s /\
      ((exists e, subprocess_run w cmd (timeout config) = inl e /\
                  is_TimeoutExpired e = true) ->
       v = VStr (lit "timeout") /\
       s = lit "Timed out" /\
       s <> lit "Clean" /\
       forall count, s <> str_of_nat count ++ lit " findings").
Proof.
  intros w repo_url tool s Hnd Hs.
  destruct (clone_and_scan_maps w repo_url)
    as [[_ Hst] | (repo_dir & tr & r0 & raised & Hrun & Hf & Hst)];
    rewrite Hst in Hs; [discriminate|].
  assert (Hrec : recorded w repo_url repo_dir r0).
  { eapply scan_tools_recorded; [ | exact Hnd | | | exact Hrun].
    - intros t c Hin. now apply dict_get_In.
    - reflexivity.
    - intros t s' Hs'. discriminate. }
  destruct (Hrec tool s Hs) as (config & cmd & tr0 & v & H1 & H2 & H3 & H4 & H5).
  exists config, repo_dir, cmd, tr0, v.
  rewrite Hf. repeat split; auto.
  - now apply status_of_rule.
  - destruct H as (e & Hsub & Hto).
    unfold run_tool in H3. rewrite H1, Hsub, Hto in H3. now inversion H3.
  - destruct H as (e & Hsub & Hto).
    unfold run_tool in H3. rewrite H1, Hsub, Hto in H3.
    inversion H3; subst v. now inversion H5.
  - destruct H as (e & Hsub & Hto).
    unfold run_tool in H3. rewrite H1, Hsub, Hto in H3.
    inversion H3; subst v. inversion H5. discriminate.
  - destruct H as (e & Hsub & Hto).
    unfold run_tool in H3. rewrite H1, Hsub, Hto in H3.
    inversion H3; subst v. inversion H5. apply count_not_timed_out.
Qed.

(** ** The tool runner *)

Lemma split_nonempty (sep : char) (s : str) : split sep s <> [].
Proof.
  destruct s as [|c s]; simpl; [discriminate|].
  destruct (N.eqb c sep); [discriminate|].
  destruct (split sep s); discriminate.
Qed.

(** On a path that stays within objects, the loop over the keys computes
    the specification's walk. *)
Lemma walk_keys_objects (path : list str) :
  forall data final,
    walk_objects path data = Some final -> walk_keys path data = inr final.
Proof.
  induction path as [|key path IH]; intros data final H; simpl in *.
  - now inversion H.
  - destruct data; try discriminate. simpl. now apply IH.
Qed.

(** A first record that is no object stops the loop at its first key. *)
Lemma walk_keys_non_object (path : list str) (data : value) :
  path <> [] ->
  (forall d, data <> VDict d) ->
  exists e, walk_keys path data = inl e /\ is_AttributeError e = true.
Proof.
  intros Hp Hd. destruct path as [|key path]; [contradiction|].
  destruct data; simpl; try (eexists; split; reflexivity).
  exfalso. eapply Hd. reflexivity.
Qed.

(** The loop over the lines stops at the first line that fails to decode. *)
Lemma decode_lines_failure (before : list str) :
  forall line after output e,
    (forall l, In l before -> nonempty (strip l) = true ->
               exists v, json_loads l = inr v) ->
    nonempty (strip line) = true ->
    json_loads line = inl e ->
    decode_lines (before ++ line :: after) output = inl (e, line).
Proof.
  induction before as [|l before IH]; intros line after output e Hok Hnb He;
    simpl.
  - now rewrite Hnb, He.
  - destruct (nonempty (strip l)) eqn:El.
    + destruct (Hok l (or_introl eq_refl) El) as [v Hv]. rewrite Hv.
      apply IH; auto. intros l' Hin. apply Hok. now right.
    + apply IH; auto. intros l' Hin. apply Hok. now right.
Qed.

(** One turn of the tool loop whose tool returned [v], labelled [s]. *)
Lemma scan_tools_single w repo_url repo_dir tool config cmd tr v s results :
  str_format (command config) repo_dir repo_url = inr cmd ->
  run_tool w tool cmd repo_dir repo_url = (tr, inr v) ->
  status_of v = inr s ->
  scan_tools w repo_url repo_dir [(tool, config)] results =
    (tr, (set_status (set_findings results tool v) tool s, None)).
Proof.
  intros Hf Hr Hs. simpl. rewrite Hf, Hr, Hs. now rewrite app_nil_r.
Qed.

Lemma dict_set_new {V} (d : dict V) (k : str) (v : V) :
  ~ In k (keys d) -> dict_set d k v = d ++ [(k, v)].
Proof.
  induction d as [|[k' v'] d IH]; simpl; auto.
  intros Hnot. destruct (str_eqb k' k) eqn:E.
  - apply str_eqb_eq in E. exfalso; auto.
  - f_equal. apply IH. auto.
Qed.

(** The loop leaves alone what is recorded for a tool it does not run. *)
Lemma scan_tools_preserves w repo_url repo_dir (t : str) :
  forall items results tr r' raised,
    ~ In t (keys items) ->
    scan_tools w repo_url repo_dir items results = (tr, (r', raised)) ->
    dict_get (status r') t = dict_get (status results) t /\
    dict_get (findings r') t = dict_get (findings results) t.
Proof.
  induction items as [|[tool config] rest IH];
    intros results tr r' raised Hnot Hrun; simpl in Hrun.
  - inversion Hrun; subst. auto.
  - assert (Hne : tool <> t) by (intros ->; apply Hnot; now left).
    assert (Hrest : ~ In t (keys rest)) by (intros H; apply Hnot; now right).
    destruct (str_format (command config) repo_dir repo_url) as [e|cmd].
    { inversion Hrun; subst. auto. }
    destruct (run_tool w tool cmd repo_dir repo_url) as [tr0 [e|v]].
    { inversion Hrun; subst. auto. }
    destruct (status_of v) as [e|s].
    { inversion Hrun; subst. simpl. split; [reflexivity|].
      now apply dict_get_set_ne. }
    destruct (scan_tools w repo_url repo_dir rest
                (set_status (set_findings results tool v) tool s))
      as [tr' [r'' raised'']] eqn:Erest.
    inversion Hrun; subst.
    destruct (IH _ _ _ _ Hrest Erest) as [Hs Hf]. simpl in Hs, Hf.
    rewrite Hs, Hf. split; now apply dict_get_set_ne.
Qed.

(** What the loop does to the outside, and how it ends, does not depend
    on the results gathered so far. *)
Lemma scan_tools_outside w repo_url repo_dir :
  forall items r1 r2,
    fst (scan_tools w repo_url repo_dir items r1)
    = fst (scan_tools w repo_url repo_dir items r2) /\
    snd (snd (scan_tools w repo_url repo_dir items r1))
    = snd (snd (scan_tools w repo_url repo_dir items r2)).
Proof.
  induction items as [|[tool config] rest IH]; intros r1 r2; simpl.
  - auto.
  - destruct (str_format (command config) repo_dir repo_url) as [e|cmd];
      [auto|].
    destruct (run_tool w tool cmd repo_dir repo_url) as [tr0 [e|v]]; [auto|].
    destruct (status_of v) as [e|s]; [auto|].
    destruct (IH (set_status (set_findings r1 tool v) tool s)
                 (set_status (set_findings r2 tool v) tool s)) as [Htr Hraised].
    destruct (scan_tools w repo_url repo_dir rest
                (set_status (set_findings r1 tool v) tool s)) as [tr1 out1].
    destruct (scan_tools w repo_url repo_dir rest
                (set_status (set_findings r2 tool v) tool s)) as [tr2 out2].
    simpl in *. now rewrite Htr, Hraised.
Qed.

(** The maps the loop leaves are what it found, followed by the records
    of the tools it ran. *)
Lemma scan_tools_records w repo_url repo_dir :
  forall items results tr r' raised,
    NoDup (keys (status results) ++ keys items) ->
    keys (findings results) = keys (status results) ->
    scan_tools w repo_url repo_dir items results = (tr, (r', raised)) ->
    exists st fd,
      tool_records w repo_url repo_dir items st fd raised /\
      status r' = status results ++ st /\
      findings r' = findings results ++ fd.
Proof.
  induction items as [|[tool config] rest IH];
    intros results tr r' raised Hnd Hkeys Hrun; simpl in Hrun.
  - inversion Hrun; subst. exists [], []. rewrite !app_nil_r.
    repeat split. constructor.
  - assert (Hfresh : ~ In tool (keys (status results))).
    { intros Hin. apply NoDup_remove_2 in Hnd. apply Hnd.
      apply in_or_app. now left. }
    assert (Hfresh' : ~ In tool (keys (findings results)))
      by now rewrite Hkeys.
    destruct (str_format (command config) repo_dir repo_url) as [e|cmd] eqn:Ef.
    { inversion Hrun; subst. exists [], []. rewrite !app_nil_r.
      repeat split. now apply records_format_raises. }
    destruct (run_tool w tool cmd repo_dir repo_url) as [tr0 [e|v]] eqn:Er.
    { inversion Hrun; subst. exists [], []. rewrite !app_nil_r.
      repeat split. now apply records_run_raises with (cmd := cmd) (tr := tr). }
    destruct (status_of v) as [e|s] eqn:Es.
    { inversion Hrun; subst. exists [], [(tool, v)]. rewrite app_nil_r.
      repeat split.
      - now apply records_status_raises with (cmd := cmd) (tr := tr).
      - simpl. now apply dict_set_new. }
    destruct (scan_tools w repo_url repo_dir rest
                (set_status (set_findings results tool v) tool s))
      as [tr' [r'' raised'']] eqn:Erest.
    inversion Hrun; subst.
    apply IH in Erest.
    + destruct Erest as (st & fd & Hrec & Hs & Hf).
      cbn [status findings set_status set_findings] in Hs, Hf.
      rewrite dict_set_new in Hs by assumption.
      rewrite dict_set_new in Hf by assumption.
      rewrite <- app_assoc in Hs. rewrite <- app_assoc in Hf.
      cbn [app] in Hs, Hf.
      exists ((tool, s) :: st), ((tool, v) :: fd). repeat split; auto.
      now apply records_next with (cmd := cmd) (tr := tr0).
    + simpl. rewrite keys_set_new by assumption.
      rewrite <- app_assoc. exact Hnd.
    + simpl. rewrite !keys_set_new; rewrite ?Hkeys; auto.
Qed.

(** C2. For a tool configured with an output-key path, the runner takes
    the first decoded record (the empty object when there is none),
    walks the dotted path key by key through it, a missing key standing
    for the empty object, and returns the value reached if it is
    non-empty and null otherwise.  With the key "Findings", the record
    {"Findings": [{"RuleID": "X"}]} yields [{"RuleID": "X"}] and the
    record {"Findings": []} yields null. *)
Theorem nested_key_extraction :
  (forall (w : TaskWorld) (tool cmd repo_dir repo_url key stdout : str)
          (config : ToolConfig) (output : list value) (final : value),
      dict_get tools tool = Some config ->
      output_key config = Some key ->
      key <> [] ->
      subprocess_run w cmd (timeout config) = inr stdout ->
      decode_stdout stdout = inr output ->
      walk_objects (split 46%N key)
        (match output with v :: _ => v | [] => VDict [] end) = Some final ->
      run_tool w tool cmd repo_dir repo_url =
        ([Run cmd (timeout config)],
         inr (if truthy final then final else VNone))) /\
  select_output (Some (lit "Findings"))
    [VDict [(lit "Findings", VList [VDict [(lit "RuleID", VStr (lit "X"))]])]]
  = inr (VList [VDict [(lit "RuleID", VStr (lit "X"))]]) /\
  select_output (Some (lit "Findings")) [VDict [(lit "Findings", VList [])]]
  = inr VNone.
Proof.
  split; [|split; reflexivity].
  intros w tool cmd repo_dir repo_url key stdout config output final
         Hcfg Hkey Hne Hsub Hdec Hwalk.
  unfold run_tool. rewrite Hcfg, Hsub, Hdec. f_equal.
  unfold select_output. rewrite Hkey.
  assert (Ht : truthy_opt (Some key) = true)
    by (destruct key; [contradiction | reflexivity]).
  rewrite Ht. now rewrite (walk_keys_objects _ _ _ Hwalk).
Qed.

(** C9. For a tool configured with an output-key path whose first
    decoded record is not an object, the runner does not raise: it
    returns the empty list, and in the results the tool loop leaves,
    whatever tools follow, the pair has the empty list as its findings
    and "Clean" as its status. *)
Theorem non_object_record_is_clean :
  forall (w : TaskWorld) (tool cmd repo_dir repo_url key stdout : str)
         (config : ToolConfig) (first : value) (others : list value)
         (rest : list (str * ToolConfig)) (results : ScanResult),
    dict_get tools tool = Some config ->
    output_key config = Some key ->
    key <> [] ->
    str_format (command config) repo_dir repo_url = inr cmd ->
    subprocess_run w cmd (timeout config) = inr stdout ->
    decode_stdout stdout = inr (first :: others) ->
    (forall d, first <> VDict d) ->
    ~ In tool (keys rest) ->
    let left_by_loop :=
      fst (snd (scan_tools w repo_url repo_dir ((tool, config) :: rest)
                  results)) in
    run_tool w tool cmd repo_dir repo_url =
      ([Run cmd (timeout config)], inr (VList [])) /\
    scan_tools w repo_url repo_dir [(tool, config)] results =
      ([Run cmd (timeout config)],
       (set_status (set_findings results tool (VList [])) tool (lit "Clean"),
        None)) /\
    dict_get (status left_by_loop) tool = Some (lit "Clean") /\
    dict_get (findings left_by_loop) tool = Some (VList []).
Proof.
  intros w tool cmd repo_dir repo_url key stdout config first others rest
         results Hcfg Hkey Hne Hfmt Hsub Hdec Hobj Hrest left_by_loop.
  assert (Hrun : run_tool w tool cmd repo_dir repo_url =
                   ([Run cmd (timeout config)], inr (VList []))).
  { unfold run_tool. rewrite Hcfg, Hsub, Hdec. f_equal.
    unfold select_output. rewrite Hkey.
    assert (Ht : truthy_opt (Some key) = true)
      by (destruct key; [contradiction | reflexivity]).
    rewrite Ht.
    destruct (walk_keys_non_object (split 46%N key) first
                (split_nonempty 46%N key) Hobj) as (e & He & Hattr).
    now rewrite He, Hattr. }
  split; [exact Hrun|].
  split; [now apply scan_tools_single with (cmd := cmd)|].
  unfold left_by_loop. cbn [scan_tools]. rewrite Hfmt, Hrun.
  change (status_of (VList [])) with (@inr exn str (lit "Clean")).
  cbv beta iota.
  destruct (scan_tools w repo_url repo_dir rest
              (set_status (set_findings results tool (VList [])) tool
                 (lit "Clean"))) as [tr' [r' raised]] eqn:Erest.
  destruct (scan_tools_preserves w repo_url repo_dir tool _ _ _ _ _
              Hrest Erest) as [Hs Hf].
  cbn [fst snd]. rewrite Hs, Hf. simpl.
  now rewrite !dict_get_set_eq.
Qed.

(** C5. When a non-blank line of a tool's stdout fails to decode as
    JSON, the lines before it having decoded, the runner returns null,
    which is not the timeout sentinel, after printing a diagnostic that
    holds the first 200 characters of that line; the tool loop records
    the status "Clean" for the pair. *)
Theorem decode_failure_is_clean :
  forall (w : TaskWorld) (tool cmd repo_dir repo_url stdout line : str)
         (config : ToolConfig) (before after : list str) (e : exn)
         (results : ScanResult),
    dict_get tools tool = Some config ->
    str_format (command config) repo_dir repo_url = inr cmd ->
    subprocess_run w cmd (timeout config) = inr stdout ->
    split 10%N (strip stdout) = before ++ line :: after ->
    (forall l, In l before -> nonempty (strip l) = true ->
               exists v, json_loads l = inr v) ->
    nonempty (strip line) = true ->
    json_loads line = inl e ->
    is_JSONDecodeError e = true ->
    let diagnostic :=
      Fore_YELLOW ++ tool ++ lit " JSON error: " ++ str_of_exn e
        ++ lit " (line: " ++ prefix 200 line ++ lit ")" in
    run_tool w tool cmd repo_dir repo_url =
      ([Run cmd (timeout config); Print diagnostic], inr VNone) /\
    VNone <> VStr (lit "timeout") /\
    scan_tools w repo_url repo_dir [(tool, config)] results =
      ([Run cmd (timeout config); Print diagnostic],
       (set_status (set_findings results tool VNone) tool (lit "Clean"), None)).
Proof.
  intros w tool cmd repo_dir repo_url stdout line config before after e results
         Hcfg Hfmt Hsub Hsplit Hok Hnb He Hjson diagnostic.
  assert (Hout : nonempty (strip stdout) = true).
  { destruct (strip stdout) eqn:Es; [|reflexivity].
    simpl in Hsplit. destruct before as [|b before].
    - inversion Hsplit; subst line. discriminate Hnb.
    - inversion Hsplit. destruct before; discriminate. }
  assert (Hrun : run_tool w tool cmd repo_dir repo_url =
                   ([Run cmd (timeout config); Print diagnostic], inr VNone)).
  { unfold run_tool. rewrite Hcfg, Hsub.
    unfold decode_stdout. rewrite Hout, Hsplit.
    rewrite (decode_lines_failure before line after [] e Hok Hnb He).
    now rewrite Hjson. }
  split; [exact Hrun|]. split; [discriminate|].
  now apply scan_tools_single with (cmd := cmd).
Qed.

(** ** A repository's task *)

(** C3. When the clone of a repository fails, [clone_repo] returns
    [None] instead of raising, the task's result has an error, its
    findings and status maps are empty, and no tool was run. *)
Theorem clone_failure_recorded :
  forall (w : TaskWorld) (repo_url temp_dir : str) (e : exn),
    mkdtemp w = inr temp_dir ->
    clone_from w repo_url (path_join temp_dir (repo_name repo_url)) = Some e ->
    snd (clone_repo w repo_url temp_dir) = None /\
    error (snd (clone_and_scan w repo_url)) <> None /\
    (cleanup w = None ->
     error (snd (clone_and_scan w repo_url))
     = Some (lit "Clone failed: " ++ repo_url)) /\
    findings (snd (clone_and_scan w repo_url)) = [] /\
    status (snd (clone_and_scan w repo_url)) = [] /\
    commands_run (fst (clone_and_scan w repo_url)) = [].
Proof.
  intros w repo_url temp_dir e Htmp Hclone.
  unfold clone_and_scan, scan_body, clone_repo.
  rewrite Htmp, Hclone. simpl.
  destruct (cleanup w); simpl; repeat split; auto; try discriminate.
Qed.

(** The tool loop extends the two maps in step, one tool after the
    other; an exception leaves them as they were, or with the findings
    of the tool whose status could not be computed. *)
Lemma scan_tools_progress w repo_url repo_dir :
  forall items results tr r' raised,
    NoDup (keys (status results) ++ keys items) ->
    keys (findings results) = keys (status results) ->
    scan_tools w repo_url repo_dir items results = (tr, (r', raised)) ->
    error r' = error results /\
    exists n,
      keys (status r') = keys (status results) ++ firstn n (keys items) /\
      (keys (findings r') = keys (status results) ++ firstn n (keys items) \/
       keys (findings r') = keys (status results) ++ firstn (S n) (keys items)).
Proof.
  induction items as [|[tool config] rest IH];
    intros results tr r' raised Hnd Hkeys Hrun; simpl in Hrun.
  - inversion Hrun; subst. split; [reflexivity|].
    exists 0. simpl. rewrite app_nil_r. auto.
  - assert (Hstop : error results = error results /\
                    exists n,
                      keys (status results)
                      = keys (status results) ++ firstn n (keys ((tool, config) :: rest)) /\
                      (keys (findings results)
                       = keys (status results) ++ firstn n (keys ((tool, config) :: rest)) \/
                       keys (findings results)
                       = keys (status results) ++ firstn (S n) (keys ((tool, config) :: rest)))).
    { split; [reflexivity|]. exists 0. simpl. rewrite app_nil_r. auto. }
    assert (Hfresh : ~ In tool (keys (status results))).
    { intros Hin. apply NoDup_remove_2 in Hnd. apply Hnd.
      apply in_or_app. now left. }
    destruct (str_format (command config) repo_dir repo_url) as [e|cmd].
    { inversion Hrun; subst. exact Hstop. }
    destruct (run_tool w tool cmd repo_dir repo_url) as [tr0 [e|v]].
    { inversion Hrun; subst. exact Hstop. }
    destruct (status_of v) as [e|s].
    { inversion Hrun; subst. split; [reflexivity|].
      exists 0. simpl. rewrite app_nil_r. split; [reflexivity|]. right.
      rewrite keys_set_new; rewrite Hkeys; auto. }
    destruct (scan_tools w repo_url repo_dir rest
                (set_status (set_findings results tool v) tool s))
      as [tr' [r'' raised'']] eqn:Erest.
    inversion Hrun; subst.
    apply IH in Erest.
    + destruct Erest as (Herr & n & Hs & Hf).
      cbn [status findings error set_status set_findings] in Herr, Hs, Hf.
      rewrite keys_set_new in Hs, Hf by assumption.
      rewrite <- app_assoc in Hs. cbn [app] in Hs.
      split; [exact Herr|]. exists (S n).
      change (keys ((tool, config) :: rest)) with (tool :: keys rest).
      rewrite !firstn_cons. split; [exact Hs|].
      destruct Hf as [Hf|Hf]; rewrite <- app_assoc in Hf; cbn [app] in Hf; auto.
    + simpl. rewrite keys_set_new by assumption.
      rewrite <- app_assoc. exact Hnd.
    + simpl. rewrite !keys_set_new; rewrite ?Hkeys; auto.
Qed.

(** ** The pool and the global report *)

Lemma remove_nth_perm {A} (l : list A) :
  forall k x, nth_error l k = Some x -> Permutation l (x :: remove_nth k l).
Proof.
  induction l as [|a l IH]; intros [|k] x H; simpl in *; try discriminate.
  - inversion H; subst. apply Permutation_refl.
  - apply IH in H. eapply perm_trans; [apply perm_skip, H | apply perm_swap].
Qed.

Lemma remove_nth_length {A} (l : list A) :
  forall k x, nth_error l k = Some x -> length l = S (length (remove_nth k l)).
Proof.
  induction l as [|a l IH]; intros [|k] x H; simpl in *; try discriminate.
  - reflexivity.
  - f_equal. eapply IH; eauto.
Qed.

Lemma complete_perm {A} (n : nat) :
  forall choices (pending : list A),
    length pending = n -> Permutation (complete n choices pending) pending.
Proof.
  induction n as [|n IH]; intros choices pending Hlen; simpl.
  - destruct pending; [constructor | discriminate].
  - destruct (nth_error pending (hd 0 choices mod length pending)) as [f|] eqn:E.
    + apply Permutation_sym.
      eapply perm_trans; [apply (remove_nth_perm _ _ _ E)|].
      apply perm_skip, Permutation_sym, IH.
      pose proof (remove_nth_length _ _ _ E). lia.
    + apply nth_error_None in E.
      assert (hd 0 choices mod length pending < length pending)
        by (apply Nat.mod_upper_bound; lia).
      lia.
Qed.

(** Every future completes, once. *)
Lemma as_completed_perm {A} (choices : list nat) (pending : list A) :
  Permutation (as_completed choices pending) pending.
Proof. apply complete_perm. reflexivity. Qed.

Lemma record_result_set (g : dict entry) (f : future) :
  record_result g f = dict_set g (fut_url f) (entry_of f).
Proof. unfold record_result, entry_of. destruct (fut_result f); reflexivity. Qed.

Lemma fold_record_NoDup (done : list future) :
  forall g, NoDup (keys g) -> NoDup (keys (fold_left record_result done g)).
Proof.
  induction done as [|f done IH]; intros g Hg; simpl; auto.
  apply IH. rewrite record_result_set. now apply keys_set_NoDup.
Qed.

Lemma fold_record_In (done : list future) :
  forall g u,
    In u (keys (fold_left record_result done g)) <->
    In u (keys g) \/ In u (map fut_url done).
Proof.
  induction done as [|f done IH]; intros g u; simpl;
    [split; [now left | intros [H|[]]; exact H]|].
  rewrite IH, record_result_set, keys_set_In.
  split; [intros [[->|H]|H]; auto | intros [H|[<-|H]]; auto].
Qed.

Lemma fold_record_other (done : list future) :
  forall g u,
    (forall f, In f done -> fut_url f <> u) ->
    dict_get (fold_left record_result done g) u = dict_get g u.
Proof.
  induction done as [|f done IH]; intros g u Hne; simpl; auto.
  rewrite IH by (intros h Hh; apply Hne; now right).
  rewrite record_result_set. apply dict_get_set_ne. apply Hne. now left.
Qed.

(** The entry of a URL is that of the last future completed for it. *)
Lemma fold_record_last (before after : list future) (f : future) (g : dict entry) :
  (forall h, In h after -> fut_url h <> fut_url f) ->
  dict_get (fold_left record_result (before ++ f :: after) g) (fut_url f)
  = Some (entry_of f).
Proof.
  intros Hafter. rewrite fold_left_app. simpl.
  rewrite fold_record_other by assumption.
  rewrite record_result_set. apply dict_get_set_eq.
Qed.

Lemma last_occurrence (done : list future) (u : str) :
  In u (map fut_url done) ->
  exists before f after,
    done = before ++ f :: after /\ fut_url f = u /\
    forall h, In h after -> fut_url h <> u.
Proof.
  induction done as [|f0 done IH]; simpl; [intros []|].
  intros Hin.
  destruct (in_dec str_eq_dec u (map fut_url done)) as [Hlater|Hnot].
  - destruct (IH Hlater) as (before & f & after & -> & Hu & Hafter).
    exists (f0 :: before), f, after. auto.
  - destruct Hin as [Hu|Hin]; [|contradiction].
    exists [], f0, done. repeat split; auto.
    intros h Hh Heq. apply Hnot. rewrite <- Heq. now apply in_map.
Qed.

Lemma submit_url (W : World) (i : nat) (url : str) :
  fut_url (submit W i url) = url.
Proof. unfold submit. now destruct (clone_and_scan (task_world W i) url). Qed.

Lemma submit_result (W : World) (i : nat) (url : str) :
  fut_result (submit W i url)
  = inr (snd (clone_and_scan (task_world W i) url)).
Proof. unfold submit. now destruct (clone_and_scan (task_world W i) url). Qed.

Lemma submit_events (W : World) (i : nat) (url : str) :
  fut_events (submit W i url) = fst (clone_and_scan (task_world W i) url).
Proof. unfold submit. now destruct (clone_and_scan (task_world W i) url). Qed.

Lemma submit_all_urls (W : World) (repos : list str) :
  forall i, map fut_url (submit_all W i repos) = repos.
Proof.
  induction repos as [|url repos IH]; intros i; simpl; auto.
  now rewrite submit_url, IH.
Qed.

Lemma submit_all_nth (W : World) (repos : list str) :
  forall i j url,
    nth_error repos j = Some url ->
    nth_error (submit_all W i repos) j = Some (submit W (i + j) url).
Proof.
  induction repos as [|u repos IH]; intros i [|j] url H; simpl in *;
    try discriminate.
  - inversion H; subst. now rewrite Nat.add_0_r.
  - rewrite (IH (S i) j url H). do 2 f_equal. lia.
Qed.

Lemma submit_all_In (W : World) (repos : list str) :
  forall i f,
    In f (submit_all W i repos) -> exists j url, f = submit W j url.
Proof.
  induction repos as [|u repos IH]; intros i f; simpl; [intros []|].
  intros [<-|Hin]; eauto.
Qed.

(** Every listed URL has an entry: the result of the task that
    completed last for it. *)
Lemma collect_last_completed (W : World) (repos : list str) (u : str) :
  In u repos ->
  exists before f after result,
    as_completed (completion W) (submit_all W 0 repos) = before ++ f :: after /\
    fut_url f = u /\
    (forall h, In h after -> fut_url h <> u) /\
    fut_result f = inr result /\
    dict_get (collect W repos) u = Some (Scanned result).
Proof.
  intros Hu.
  assert (Hperm : Permutation (as_completed (completion W) (submit_all W 0 repos))
                    (submit_all W 0 repos)) by apply as_completed_perm.
  assert (Hin' : In u (map fut_url (as_completed (completion W)
                                      (submit_all W 0 repos)))).
  { eapply Permutation_in;
      [apply Permutation_map, Permutation_sym, Hperm|].
    now rewrite submit_all_urls. }
  destruct (last_occurrence _ u Hin') as (before & f & after & Hd & Hf & Hafter).
  assert (Hin : In f (submit_all W 0 repos)).
  { apply (Permutation_in _ Hperm). rewrite Hd. apply in_or_app.
    right. now left. }
  destruct (submit_all_In _ _ _ _ Hin) as (j & url & ->).
  exists before, (submit W j url), after,
         (snd (clone_and_scan (task_world W j) url)).
  repeat split; auto.
  - apply submit_result.
  - unfold collect. rewrite Hd, <- Hf. rewrite fold_record_last.
    + unfold entry_of. now rewrite submit_result.
    + rewrite Hf. exact Hafter.
Qed.

(** C10. The global report has at most one entry per URL.  Every
    occurrence of a URL in the list is scanned, by a task of its own,
    and the entry the report keeps for the URL is the result of the
    task that completed last among them; the text printed is the
    rendering of that report. *)
Theorem report_keeps_last_completed :
  forall (W : World) (repos : list str),
    let futures := submit_all W 0 repos in
    let done := as_completed (completion W) futures in
    let global_report := collect W repos in
    map fut_url futures = repos /\
    Permutation done futures /\
    NoDup (keys global_report) /\
    (forall u, In u (keys global_report) <-> In u repos) /\
    (forall u, In u repos ->
       exists before f after result,
         done = before ++ f :: after /\
         fut_url f = u /\
         (forall h, In h after -> fut_url h <> u) /\
         fut_result f = inr result /\
         dict_get global_report u = Some (Scanned result)) /\
    (forall input_file text body,
       check_tools_installed W = ([], None) ->
       open_read W input_file = inr text ->
       read_repos text = repos ->
       format_report global_report = inr body ->
       main W input_file
       = (map Submit repos ++ flat_map fut_events done ++ [Print body],
          Returned)).
Proof.
  intros W repos futures done global_report.
  assert (Hurls : map fut_url futures = repos) by apply submit_all_urls.
  assert (Hperm : Permutation done futures) by apply as_completed_perm.
  assert (Hdone : forall u, In u (map fut_url done) <-> In u repos).
  { intros u. rewrite <- Hurls. split; apply Permutation_in.
    - now apply Permutation_map.
    - now apply Permutation_map, Permutation_sym. }
  split; [exact Hurls|]. split; [exact Hperm|].
  split; [apply fold_record_NoDup; constructor|].
  split.
  { intros u. unfold global_report, collect. fold futures. fold done.
    rewrite fold_record_In. simpl. rewrite Hdone.
    split; [intros [[]|H]; exact H | now right]. }
  split; [intros u Hu; now apply collect_last_completed|].
  intros input_file text body Hcheck Hopen Hrepos Hfmt.
  unfold main. rewrite Hcheck, Hopen, Hrepos.
  fold futures. fold done. fold global_report. rewrite Hfmt.
  simpl. now rewrite <- app_assoc.
Qed.

(** C4, as the script has it.  An exception raised inside a
    repository's task is caught by the task itself: the task returns a
    result whose error names the repository and the exception, and the
    future holds that result.  The findings and status maps keep
    exactly what the tools that ran before the exception recorded: the
    value and status of each tool that returned, in the registry's
    order, and the findings of the tool whose status could not be
    computed; they are empty when no tool returned.  The exception does
    not stop the run: every listed repository ends with an entry in the
    report, and [main] ends as the rendering of that report ends, after
    every task was submitted and completed. *)
Theorem task_exception_recorded :
  forall (W : World) (repos : list str) (i : nat) (repo_url : str)
         (tr : list event) (results' : ScanResult) (e : exn),
    NoDup (keys tools) ->
    nth_error repos i = Some repo_url ->
    scan_body (task_world W i) repo_url no_results = (tr, (results', Some e)) ->
    let w := task_world W i in
    let r :=
      set_error results'
        (lit "Error scanning " ++ repo_url ++ lit ": " ++ str_of_exn e) in
    let scanned :=
      map Submit repos
        ++ flat_map fut_events
             (as_completed (completion W) (submit_all W 0 repos)) in
    clone_and_scan w repo_url = (tr, r) /\
    fut_result (submit W i repo_url) = inr r /\
    ((status r = [] /\ findings r = [] /\ commands_run tr = []) \/
     (exists temp_dir raised,
         mkdtemp w = inr temp_dir /\
         clone_from w repo_url (path_join temp_dir (repo_name repo_url))
         = None /\
         tool_records w repo_url (path_join temp_dir (repo_name repo_url))
           tools (status r) (findings r) raised /\
         (cleanup w = Some e \/ cleanup w = None /\ raised = Some e))) /\
    (exists n,
        keys (status r) = firstn n (keys tools) /\
        (keys (findings r) = firstn n (keys tools) \/
         keys (findings r) = firstn (S n) (keys tools))) /\
    (forall u, In u repos ->
       exists result, dict_get (collect W repos) u = Some (Scanned result)) /\
    (forall input_file text,
        check_tools_installed W = ([], None) ->
        open_read W input_file = inr text ->
        read_repos text = repos ->
        (forall body,
            format_report (collect W repos) = inr body ->
            main W input_file = (scanned ++ [Print body], Returned)) /\
        (forall e',
            format_report (collect W repos) = inl e' ->
            main W input_file = (scanned, Uncaught e'))).
Proof.
  intros W repos i repo_url tr results' e Hnd Hnth Hbody w r scanned.
  assert (Hrun : clone_and_scan w repo_url = (tr, r)).
  { unfold clone_and_scan, w. now rewrite Hbody. }
  split; [exact Hrun|].
  split; [rewrite submit_result; fold w; rewrite Hrun; reflexivity|].
  split; [|split; [|split]].
  - unfold r. cbn [status findings set_error].
    unfold scan_body, clone_repo in Hbody. fold w in Hbody.
    destruct (mkdtemp w) as [e0|temp_dir].
    { inversion Hbody; subst. left. repeat split; reflexivity. }
    destruct (clone_from w repo_url (path_join temp_dir (repo_name repo_url)))
      as [e0|] eqn:Eclone.
    { destruct (cleanup w); inversion Hbody; subst.
      left. repeat split; reflexivity. }
    destruct (nonempty (path_join temp_dir (repo_name repo_url))).
    + destruct (scan_tools w repo_url
                  (path_join temp_dir (repo_name repo_url)) tools no_results)
        as [tr0 [r0 raised0]] eqn:Es.
      apply scan_tools_records in Es; [|exact Hnd|reflexivity].
      destruct Es as (st & fd & Hrec & Hs & Hf). simpl in Hs, Hf.
      rewrite <- Hs, <- Hf in Hrec. clear st fd Hs Hf.
      right. exists temp_dir, raised0.
      destruct (cleanup w) as [e0|] eqn:Ec; inversion Hbody; subst;
        repeat split; auto.
    + destruct (cleanup w); inversion Hbody; subst.
      left. repeat split; reflexivity.
  - unfold r. cbn [status findings set_error].
    unfold scan_body, clone_repo in Hbody. fold w in Hbody.
    destruct (mkdtemp w) as [e0|temp_dir].
    { inversion Hbody; subst. exists 0. simpl. auto. }
    destruct (clone_from w repo_url (path_join temp_dir (repo_name repo_url)))
      as [e0|].
    { destruct (cleanup w); inversion Hbody; subst. exists 0. simpl. auto. }
    destruct (nonempty (path_join temp_dir (repo_name repo_url))).
    + destruct (scan_tools w repo_url
                  (path_join temp_dir (repo_name repo_url)) tools no_results)
        as [tr0 [r0 raised0]] eqn:Es.
      apply scan_tools_progress in Es; [|exact Hnd|reflexivity].
      destruct Es as (_ & n & Hs & Hf). simpl in Hs, Hf.
      assert (results' = r0) as ->
          by (destruct (cleanup w); now inversion Hbody).
      exists n. auto.
    + destruct (cleanup w); inversion Hbody; subst. exists 0. simpl. auto.
  - intros u Hu.
    destruct (collect_last_completed W repos u Hu)
      as (_ & _ & _ & result & _ & _ & _ & _ & Hget).
    now exists result.
  - intros input_file text Hcheck Hopen Hrepos.
    unfold main. rewrite Hcheck, Hopen, Hrepos. fold scanned.
    split.
    + intros body Hfmt. rewrite Hfmt. reflexivity.
    + intros e' Hfmt. rewrite Hfmt. reflexivity.
Qed.

(** ** Startup and dispatch *)

Lemma join_names (sep : str) (l : list str) (x : str) :
  In x l -> exists a b, join sep l = a ++ x ++ b.
Proof.
  induction l as [|p l IH]; [intros []|].
  intros Hin. destruct l as [|q l].
  - destruct Hin as [->|[]]. exists [], []. simpl. now rewrite app_nil_r.
  - destruct Hin as [->|Hin].
    + exists [], (sep ++ join sep (q :: l)). reflexivity.
    + destruct (IH Hin) as (a & b & Hj).
      exists (p ++ sep ++ a), b.
      change (join sep (p :: q :: l)) with (p ++ sep ++ join sep (q :: l)).
      rewrite Hj. now rewrite <- !app_assoc.
Qed.

(** C6. If a tool of the registry is not found on the path, [main]
    only prints a diagnostic and exits with code 1: the diagnostic
    lists the tools not found, this one among them, and nothing is
    submitted, cloned or run.  If every tool is found, the check prints
    nothing and does not exit. *)
Theorem missing_tools_abort :
  forall (W : World) (input_file : str),
    (forall tool,
        In tool (keys tools) ->
        truthy_opt (shutil_which W tool) = false ->
        In tool (missing_tools W) /\
        main W input_file
        = ([Print (Fore_RED ++ lit "Missing tools: "
                     ++ join (lit ", ") (missing_tools W))],
           SystemExit 1) /\
        exists a b, join (lit ", ") (missing_tools W) = a ++ tool ++ b) /\
    ((forall tool, In tool (keys tools) ->
                   truthy_opt (shutil_which W tool) = true) ->
     check_tools_installed W = ([], None)).
Proof.
  intros W input_file. split.
  - intros tool Hin Hmiss.
    assert (Hm : In tool (missing_tools W)).
    { unfold missing_tools. apply filter_In. split; auto. now rewrite Hmiss. }
    split; [exact Hm|]. split; [|now apply join_names].
    unfold main, check_tools_installed.
    destruct (missing_tools W); [destruct Hm | reflexivity].
  - intros Hall. unfold check_tools_installed, missing_tools.
    replace (filter (fun tool => negb (truthy_opt (shutil_which W tool)))
               (keys tools)) with (@nil str); [reflexivity|].
    symmetry. induction (keys tools) as [|t l IH]; simpl; auto.
    rewrite (Hall t) by (now left). simpl.
    apply IH. intros t' Ht'. apply Hall. now right.
Qed.

Lemma submitted_app (a b : list event) :
  submitted (a ++ b) = submitted a ++ submitted b.
Proof.
  induction a as [|ev a IH]; simpl; auto.
  destruct ev; simpl; now rewrite ?IH.
Qed.

Lemma submitted_Submit (l : list str) : submitted (map Submit l) = l.
Proof. induction l; simpl; now rewrite ?IHl. Qed.

(** A task submits nothing itself. *)
Lemma run_tool_submits_nothing w tool cmd repo_dir repo_url :
  submitted (fst (run_tool w tool cmd repo_dir repo_url)) = [].
Proof.
  unfold run_tool.
  destruct (dict_get tools tool) as [config|]; [|reflexivity].
  destruct (subprocess_run w cmd (timeout config)) as [e|stdout].
  - destruct (is_TimeoutExpired e); reflexivity.
  - destruct (decode_stdout stdout) as [[e line]|output]; [|reflexivity].
    destruct (is_JSONDecodeError e); reflexivity.
Qed.

Lemma scan_tools_submits_nothing w repo_url repo_dir :
  forall items results,
    submitted (fst (scan_tools w repo_url repo_dir items results)) = [].
Proof.
  induction items as [|[tool config] rest IH]; intros results; simpl; auto.
  destruct (str_format (command config) repo_dir repo_url) as [e|cmd];
    [reflexivity|].
  pose proof (run_tool_submits_nothing w tool cmd repo_dir repo_url) as Hr.
  destruct (run_tool w tool cmd repo_dir repo_url) as [tr [e|v]];
    simpl in Hr; [exact Hr|].
  destruct (status_of v) as [e|s]; [exact Hr|].
  specialize (IH (set_status (set_findings results tool v) tool s)).
  destruct (scan_tools w repo_url repo_dir rest
              (set_status (set_findings results tool v) tool s)) as [tr' out].
  simpl in *. now rewrite submitted_app, Hr, IH.
Qed.

Lemma clone_and_scan_submits_nothing w repo_url :
  submitted (fst (clone_and_scan w repo_url)) = [].
Proof.
  unfold clone_and_scan, scan_body, clone_repo.
  destruct (mkdtemp w) as [e|temp_dir]; [reflexivity|].
  destruct (clone_from w repo_url (path_join temp_dir (repo_name repo_url))).
  - destruct (cleanup w); reflexivity.
  - destruct (nonempty (path_join temp_dir (repo_name repo_url))).
    + pose proof (scan_tools_submits_nothing w repo_url
                    (path_join temp_dir (repo_name repo_url)) tools
                    no_results) as Hs.
      destruct (scan_tools w repo_url (path_join temp_dir (repo_name repo_url))
                  tools no_results)
        as [tr [r0 raised]].
      simpl in Hs.
      destruct (cleanup w); [simpl; exact Hs|].
      destruct raised; simpl; exact Hs.
    + destruct (cleanup w); reflexivity.
Qed.

Lemma futures_submit_nothing (W : World) (l : list future) :
  (forall f, In f l -> exists j url, f = submit W j url) ->
  submitted (flat_map fut_events l) = [].
Proof.
  induction l as [|f l IH]; intros Hall; simpl; auto.
  rewrite submitted_app, IH by (intros h Hh; apply Hall; now right).
  destruct (Hall f (or_introl eq_refl)) as (j & url & ->).
  rewrite submit_events, clone_and_scan_submits_nothing. reflexivity.
Qed.

Lemma read_repos_lines (text : str) :
  read_repos text
  = filter nonempty (map strip (file_lines (translate_newlines text))).
Proof.
  unfold read_repos.
  induction (file_lines (translate_newlines text)) as [|l ls IH]; simpl; auto.
  destruct (nonempty (strip l)); simpl; now rewrite IH.
Qed.

(** C7. Once the tools are found and the file is read, the URLs [main]
    submits to the pool are the stripped lines of the file that are not
    blank, each as often as it occurs and in the order of the file;
    every occurrence gets a task of its own, and every task completes. *)
Theorem dispatch_nonblank_lines :
  forall (W : World) (input_file text : str),
    check_tools_installed W = ([], None) ->
    open_read W input_file = inr text ->
    let urls :=
      filter nonempty (map strip (file_lines (translate_newlines text))) in
    submitted (fst (main W input_file)) = urls /\
    (forall u, count_occ str_eq_dec (submitted (fst (main W input_file))) u
               = count_occ str_eq_dec urls u) /\
    (forall i url, nth_error urls i = Some url ->
                   nth_error (submit_all W 0 urls) i = Some (submit W i url)) /\
    Permutation
      (map fut_url (as_completed (completion W) (submit_all W 0 urls))) urls.
Proof.
  intros W input_file text Hcheck Hopen urls.
  assert (Hsub : submitted (fst (main W input_file)) = urls).
  { unfold main. rewrite Hcheck, Hopen, read_repos_lines. fold urls.
    assert (Hnone : submitted
                      (flat_map fut_events
                         (as_completed (completion W) (submit_all W 0 urls)))
                    = []).
    { apply (futures_submit_nothing W). intros f Hf.
      apply (submit_all_In W urls 0).
      eapply Permutation_in; [apply as_completed_perm | exact Hf]. }
    destruct (format_report (collect W urls)); simpl;
      rewrite ?submitted_app, submitted_Submit, ?submitted_app, Hnone; simpl;
      now rewrite ?app_nil_r. }
  split; [exact Hsub|].
  split; [intros u; now rewrite Hsub|].
  split; [intros i url Hnth; now apply (submit_all_nth W urls 0 i url)|].
  rewrite <- (submit_all_urls W urls 0) at 2.
  apply Permutation_map, as_completed_perm.
Qed.

(** C8, the defect.  For the URL of a repository named
    octocat.github.io, [repo_name] is "octocathub.io": the ".git" inside
    the last path segment is removed together with the trailing suffix,
    where the name meant is "octocat.github.io". *)
Theorem repo_name_drops_inner_git :
  repo_name (lit "https://github.com/octocat/octocat.github.io.git")
  = lit "octocathub.io" /\
  repo_name (lit "https://github.com/octocat/octocat.github.io.git")
  <> lit "octocat.github.io".
Proof. split; [reflexivity | discriminate]. Qed.

(** ** The report *)

Lemma repo_section_quiet (repo_url : str) (r : ScanResult) :
  quiet r -> repo_section repo_url (Scanned r) = inr (false, []).
Proof.
  intros [Herr Hsilent]. unfold repo_section. rewrite Herr.
  destruct (existsb
              (fun ts =>
                 match dict_get (findings r) (fst ts) with
                 | Some v => truthy v && negb (is_timeout v)
                 | None => false
                 end) (status r)) eqn:Efound; [|reflexivity].
  apply existsb_exists in Efound. destruct Efound as ([tool s] & Hin & Hv).
  simpl in Hv. destruct (dict_get (findings r) tool) as [v|] eqn:Eg;
    [|discriminate].
  assert (Hk : In tool (keys (status r)))
    by (change tool with (fst (tool, s)); now apply in_map).
  destruct (Hsilent tool v Hk Eg) as [Hf | ->].
  - rewrite Hf in Hv. discriminate.
  - discriminate Hv.
Qed.

Lemma report_lines_quiet (items : list (str * entry)) :
  (forall u data, In (u, data) items -> exists r, data = Scanned r /\ quiet r) ->
  report_lines items = inr (false, []).
Proof.
  induction items as [|[u data] rest IH]; intros Hall; [reflexivity|].
  simpl. destruct (Hall u data (or_introl eq_refl)) as (r & -> & Hq).
  rewrite (repo_section_quiet u r Hq). simpl.
  rewrite IH by (intros u' d' Hin; apply (Hall u' d'); now right).
  reflexivity.
Qed.

(** X1. A report in which every repository is quiet (no error, and only
    empty results or timeouts) is rendered as the single message "No
    findings across all repositories"; so is the empty report. *)
Theorem quiet_report_all_clean :
  forall (global_report : dict entry),
    (forall u data, In (u, data) global_report ->
                    exists r, data = Scanned r /\ quiet r) ->
    format_report global_report = inr all_clean_message.
Proof.
  intros global_report Hall.
  unfold format_report. now rewrite (report_lines_quiet global_report Hall).
Qed.

Lemma report_lines_error (items : list (str * entry)) :
  forall flag lines u r msg,
    report_lines items = inr (flag, lines) ->
    In (u, Scanned r) items ->
    error r = Some msg ->
    nonempty msg = true ->
    flag = true /\ In (error_line msg) lines.
Proof.
  induction items as [|[u0 data] rest IH];
    intros flag lines u r msg Hrun Hin Herr Hmsg; [destruct Hin|].
  simpl in Hrun.
  destruct (repo_section u0 data) as [e|[here_flag here]] eqn:Ehere;
    [discriminate|].
  destruct (report_lines rest) as [e|[more_flag more]] eqn:Emore;
    [discriminate|].
  simpl in Hrun. inversion Hrun; subst flag lines.
  destruct Hin as [Heq|Hin].
  - inversion Heq; subst u0 data.
    unfold repo_section in Ehere. rewrite Herr in Ehere. simpl in Ehere.
    rewrite Hmsg in Ehere. simpl in Ehere.
    destruct (tool_sections (findings r)) as [e|sections];
      [discriminate|].
    simpl in Ehere. inversion Ehere; subst here_flag here.
    split; [reflexivity|]. apply in_or_app. left. now left.
  - destruct (IH more_flag more u r msg eq_refl Hin Herr Hmsg) as [-> Hl].
    split; [apply orb_true_r|]. apply in_or_app. now right.
Qed.

(** X2. Whenever the report is rendered, every non-empty error recorded
    for a repository stands in the text, as its "ERROR: ..." line. *)
Theorem rendered_report_shows_errors :
  forall (global_report : dict entry) (body u msg : str) (r : ScanResult),
    format_report global_report = inr body ->
    In (u, Scanned r) global_report ->
    error r = Some msg ->
    nonempty msg = true ->
    exists before after, body = before ++ error_line msg ++ after.
Proof.
  intros global_report body u msg r Hfmt Hin Herr Hmsg.
  unfold format_report in Hfmt.
  destruct (report_lines global_report) as [e|[flag lines]] eqn:Elines;
    [discriminate|].
  destruct (report_lines_error global_report flag lines u r msg
              Elines Hin Herr Hmsg) as [-> Hline].
  simpl in Hfmt. inversion Hfmt; subst body.
  now apply join_names.
Qed.

(** X3. The reporter cannot render the entry [{'error': ...}] that the
    handler of [main] stores: at the first such entry it raises the
    KeyError for 'status', whatever the entry's message. *)
Theorem failed_entry_breaks_report :
  forall (before after : list (str * entry)) (u msg : str)
         (shown : bool * list str),
    report_lines before = inr shown ->
    format_report (before ++ (u, Failed msg) :: after)
    = inl (Exn KeyError (lit "'status'")).
Proof.
  intros before after u msg shown Hbefore.
  assert (Hlines : report_lines (before ++ (u, Failed msg) :: after)
                   = inl (Exn KeyError (lit "'status'"))).
  { revert shown Hbefore.
    induction before as [|[u0 data] rest IH]; intros shown Hbefore.
    - reflexivity.
    - simpl in *.
      destruct (repo_section u0 data) as [e|here]; [discriminate|].
      simpl in *.
      destruct (report_lines rest) as [e|more]; [discriminate|].
      now rewrite (IH more eq_refl). }
  unfold format_report. now rewrite Hlines.
Qed.

Lemma no_length_not_iterable (v : value) (e : exn) :
  py_len v = inl e ->
  is_timeout v = false /\ exists e', py_iter v = inl e'.
Proof.
  destruct v; simpl; intros H; try discriminate H;
    (split; [reflexivity | eexists; reflexivity]).
Qed.

Lemma tool_sections_not_iterable (items : list (str * value)) :
  forall tool v e,
    In (tool, v) items ->
    tool = lit "trufflehog" \/ tool = lit "gitleaks" ->
    truthy v = true ->
    py_len v = inl e ->
    exists e', tool_sections items = inl e'.
Proof.
  induction items as [|[tool0 found] rest IH];
    intros tool v e Hin Htool Htruthy Hlen; [destruct Hin|].
  destruct Hin as [Heq|Hin].
  - inversion Heq; subst tool0 found.
    destruct (no_length_not_iterable v e Hlen) as [Hto [e' Hiter]].
    simpl. rewrite Htruthy, Hto, Hiter. simpl.
    destruct Htool as [-> | ->]; simpl; eexists; reflexivity.
  - destruct (IH tool v e Hin Htool Htruthy Hlen) as [e' Hrest].
    simpl. rewrite Hrest.
    destruct (negb (truthy found) || is_timeout found);
      [eexists; reflexivity|].
    match goal with
    | |- exists _, bindE ?b _ = _ => destruct b as [e0|body]
    end; simpl; eexists; reflexivity.
Qed.

(** X4. A non-empty value without a length (a number, [true]) kept as
    the findings of trufflehog or gitleaks in an entry that has an
    error makes the reporter raise: no report is rendered. *)
Theorem report_fails_on_unsized_findings :
  forall (global_report : dict entry) (u tool : str) (r : ScanResult)
         (v : value) (e : exn),
    In (u, Scanned r) global_report ->
    truthy_opt (error r) = true ->
    In (tool, v) (findings r) ->
    tool = lit "trufflehog" \/ tool = lit "gitleaks" ->
    truthy v = true ->
    py_len v = inl e ->
    exists e', format_report global_report = inl e'.
Proof.
  intros global_report u tool r v e Hin Herr Hfind Htool Htruthy Hlen.
  destruct (tool_sections_not_iterable (findings r) tool v e
              Hfind Htool Htruthy Hlen) as [e1 Hsec].
  assert (Hrepo : repo_section u (Scanned r) = inl e1).
  { unfold repo_section. rewrite Herr, Hsec. reflexivity. }
  assert (Hlines : exists e', report_lines global_report = inl e').
  { induction global_report as [|[u0 data] rest IH]; [destruct Hin|].
    simpl. destruct Hin as [Heq|Hin].
    - inversion Heq; subst u0 data. rewrite Hrepo. eexists; reflexivity.
    - destruct (IH Hin) as [e' Hrest]. rewrite Hrest.
      destruct (repo_section u0 data); eexists; reflexivity. }
  destruct Hlines as [e' Hlines].
  exists e'. unfold format_report. now rewrite Hlines.
Qed.

(** ** Stripping *)

Lemma lstrip_spaces (s : str) :
  (forall c, In c s -> isspace c = true) -> lstrip s = [].
Proof.
  induction s as [|c s IH]; intros Hall; simpl; [reflexivity|].
  rewrite (Hall c (or_introl eq_refl)). apply IH.
  intros c' Hc'. apply Hall. now right.
Qed.

Lemma lstrip_split (s : str) :
  exists p, s = p ++ lstrip s /\ forall c, In c p -> isspace c = true.
Proof.
  induction s as [|c s (p & Hs & Hp)]; simpl.
  - exists []. split; [reflexivity | intros c []].
  - destruct (isspace c) eqn:Ec.
    + exists (c :: p). split; [simpl; now rewrite <- Hs|].
      intros c' [<-|Hc']; auto.
    + exists []. split; [reflexivity | intros c' []].
Qed.

Lemma lstrip_head (s : str) (c : char) (t : str) :
  lstrip s = c :: t -> isspace c = false.
Proof.
  induction s as [|c0 s IH]; simpl; [discriminate|].
  destruct (isspace c0) eqn:Ec; auto.
  intros H; inversion H; subst. exact Ec.
Qed.

Lemma rstrip_split (s : str) :
  exists q, s = rstrip s ++ q /\ forall c, In c q -> isspace c = true.
Proof.
  unfold rstrip. destruct (lstrip_split (rev s)) as (p & Hs & Hp).
  exists (rev p). split.
  - rewrite <- rev_app_distr, <- Hs. symmetry. apply rev_involutive.
  - intros c Hc. apply Hp. now apply in_rev.
Qed.

Lemma rstrip_last (s : str) :
  rstrip s <> [] -> isspace (last (rstrip s) 0%N) = false.
Proof.
  unfold rstrip. destruct (lstrip (rev s)) as [|c t] eqn:E.
  - intros H; now contradiction H.
  - intros _. simpl. rewrite last_last. exact (lstrip_head _ _ _ E).
Qed.

(** A string strips to nothing exactly when it is all whitespace. *)
Lemma strip_blank (s : str) :
  strip s = [] <-> (forall c, In c s -> isspace c = true).
Proof.
  unfold strip. split.
  - intros Hs c Hc.
    destruct (lstrip_split s) as (p & Hp & Hpsp).
    destruct (rstrip_split (lstrip s)) as (q & Hq & Hqsp).
    rewrite Hs in Hq. simpl in Hq. rewrite Hq in Hp. rewrite Hp in Hc.
    apply in_app_or in Hc. destruct Hc; auto.
  - intros Hall. rewrite (lstrip_spaces s Hall). reflexivity.
Qed.

(** What is stripped off is whitespace, and what is left neither starts
    nor ends with it. *)
Lemma strip_split (s : str) :
  exists p q,
    s = p ++ strip s ++ q /\
    (forall c, In c p -> isspace c = true) /\
    (forall c, In c q -> isspace c = true).
Proof.
  destruct (lstrip_split s) as (p & Hp & Hpsp).
  destruct (rstrip_split (lstrip s)) as (q & Hq & Hqsp).
  exists p, q. unfold strip. rewrite <- Hq. auto.
Qed.

Lemma strip_last (s : str) :
  strip s <> [] -> isspace (last (strip s) 0%N) = false.
Proof. apply rstrip_last. Qed.

Lemma strip_head (s : str) (c : char) (t : str) :
  strip s = c :: t -> isspace c = false.
Proof.
  unfold strip. intros H.
  destruct (rstrip_split (lstrip s)) as (q & Hq & Hqsp).
  rewrite H in Hq. simpl in Hq. now apply (lstrip_head s c (t ++ q)).
Qed.

Lemma lstrip_fixed (s : str) (c : char) (t : str) :
  s = c :: t -> isspace c = false -> lstrip s = s.
Proof. intros -> H. simpl. now rewrite H. Qed.

(** Stripping a stripped string changes nothing. *)
Lemma strip_strip (s : str) : strip (strip s) = strip s.
Proof.
  destruct (strip s) as [|c t] eqn:E; [reflexivity|].
  assert (Hhead : isspace c = false) by exact (strip_head s c t E).
  assert (Hlast : isspace (last (c :: t) 0%N) = false).
  { rewrite <- E. apply strip_last. rewrite E. discriminate. }
  unfold strip at 1. rewrite (lstrip_fixed (c :: t) c t eq_refl Hhead).
  unfold rstrip.
  assert (Hrev : exists x, rev (c :: t) = last (c :: t) 0%N :: x).
  { destruct (exists_last (l := c :: t)) as (x & a & Hx); [discriminate|].
    rewrite Hx, last_last, rev_app_distr. simpl. now exists (rev x). }
  destruct Hrev as (x & Hx).
  rewrite (lstrip_fixed _ _ x Hx Hlast). apply rev_involutive.
Qed.

(** ** The tool runner, further *)

Lemma walk_keys_empty_object (path : list str) :
  walk_keys path (VDict []) = inr (VDict []).
Proof. induction path as [|key path IH]; simpl; auto. Qed.

(** X5. A tool whose stdout is empty or all whitespace returns null,
    with or without an output key: nothing is decoded, and the pair is
    labelled "Clean". *)
Theorem blank_stdout_is_clean :
  forall (w : TaskWorld) (tool cmd repo_dir repo_url stdout : str)
         (config : ToolConfig),
    dict_get tools tool = Some config ->
    subprocess_run w cmd (timeout config) = inr stdout ->
    (forall c, In c stdout -> isspace c = true) ->
    run_tool w tool cmd repo_dir repo_url
    = ([Run cmd (timeout config)], inr VNone) /\
    status_of VNone = inr (lit "Clean").
Proof.
  intros w tool cmd repo_dir repo_url stdout config Hcfg Hsub Hblank.
  split; [|reflexivity].
  unfold run_tool. rewrite Hcfg, Hsub.
  unfold decode_stdout. rewrite (proj2 (strip_blank stdout) Hblank). simpl.
  f_equal. unfold select_output.
  destruct (truthy_opt (output_key config)); [|reflexivity].
  now rewrite walk_keys_empty_object.
Qed.

Lemma decode_lines_all (lines : list str) :
  forall values output,
    Forall2 (fun line v => json_loads line = inr v)
      (filter (fun line => nonempty (strip line)) lines) values ->
    decode_lines lines output = inr (output ++ values).
Proof.
  induction lines as [|line lines IH]; intros values output Hdec; simpl in *.
  - inversion Hdec. now rewrite app_nil_r.
  - destruct (nonempty (strip line)).
    + inversion Hdec as [|? v ? values' Hv Hrest]; subst.
      rewrite Hv, (IH values' (output ++ [v]) Hrest).
      now rewrite <- app_assoc.
    + now apply IH.
Qed.

(** X6. For a tool without an output key whose non-blank stdout lines
    all decode, the runner returns the decoded values, one per
    non-blank line and in the order of the lines, and the pair is
    labelled with the number of those lines. *)
Theorem line_delimited_findings :
  forall (w : TaskWorld) (tool cmd repo_dir repo_url stdout : str)
         (config : ToolConfig) (values : list value),
    dict_get tools tool = Some config ->
    output_key config = None ->
    subprocess_run w cmd (timeout config) = inr stdout ->
    Forall2 (fun line v => json_loads line = inr v)
      (filter (fun line => nonempty (strip line))
         (split 10%N (strip stdout))) values ->
    values <> [] ->
    run_tool w tool cmd repo_dir repo_url
    = ([Run cmd (timeout config)], inr (VList values)) /\
    status_of (VList values)
    = inr (str_of_nat
             (length (filter (fun line => nonempty (strip line))
                        (split 10%N (strip stdout))))
             ++ lit " findings").
Proof.
  intros w tool cmd repo_dir repo_url stdout config values
         Hcfg Hkey Hsub Hdec Hne.
  assert (Hout : nonempty (strip stdout) = true).
  { destruct (strip stdout) eqn:Es; [|reflexivity].
    simpl in Hdec. inversion Hdec; subst. now contradiction Hne. }
  split.
  - unfold run_tool. rewrite Hcfg, Hsub.
    unfold decode_stdout. rewrite Hout.
    rewrite (decode_lines_all _ values [] Hdec). simpl.
    unfold select_output. rewrite Hkey. simpl.
    destruct values; [now contradiction Hne | reflexivity].
  - rewrite (Forall2_length Hdec).
    unfold status_of. simpl.
    destruct values; [now contradiction Hne | reflexivity].
Qed.

(** X7. Whatever a tool prints, the value the runner returns is null,
    the empty list or a non-empty value: an empty string, object, zero
    or [false] found by the key walk is never kept as findings. *)
Theorem run_tool_result_shape :
  forall (w : TaskWorld) (tool cmd repo_dir repo_url : str)
         (tr : list event) (v : value),
    run_tool w tool cmd repo_dir repo_url = (tr, inr v) ->
    v = VNone \/ v = VList [] \/ truthy v = true.
Proof.
  intros w tool cmd repo_dir repo_url tr v Hrun.
  unfold run_tool in Hrun.
  destruct (dict_get tools tool) as [config|]; [|discriminate].
  destruct (subprocess_run w cmd (timeout config)) as [e|stdout].
  { destruct (is_TimeoutExpired e); inversion Hrun. right; right; reflexivity. }
  destruct (decode_stdout stdout) as [[e line]|output].
  { destruct (is_JSONDecodeError e); inversion Hrun. now left. }
  inversion Hrun as [[Htr Hv]]. clear Hrun. unfold select_output in Hv.
  destruct (truthy_opt (output_key config)).
  - destruct (walk_keys _ _) as [e|data].
    + destruct (is_AttributeError e); inversion Hv. right; now left.
    + inversion Hv. destruct (truthy data) eqn:Ed; auto.
  - inversion Hv. destruct output; [now left | right; right; reflexivity].
Qed.

(** X8. The timeout sentinel is an ordinary string: when the value
    found under a tool's output key is the string "timeout", the runner
    returns it, prints nothing, and the pair is labelled "Timed out"
    although the subprocess completed. *)
Theorem timeout_string_is_labelled_timed_out :
  forall (w : TaskWorld) (tool cmd repo_dir repo_url key stdout : str)
         (config : ToolConfig) (output : list value),
    dict_get tools tool = Some config ->
    output_key config = Some key ->
    key <> [] ->
    subprocess_run w cmd (timeout config) = inr stdout ->
    decode_stdout stdout = inr output ->
    walk_objects (split 46%N key)
      (match output with v :: _ => v | [] => VDict [] end)
    = Some (VStr (lit "timeout")) ->
    run_tool w tool cmd repo_dir repo_url
    = ([Run cmd (timeout config)], inr (VStr (lit "timeout"))) /\
    status_of (VStr (lit "timeout")) = inr (lit "Timed out").
Proof.
  intros w tool cmd repo_dir repo_url key stdout config output
         Hcfg Hkey Hne Hsub Hdec Hwalk.
  split; [|reflexivity].
  unfold run_tool. rewrite Hcfg, Hsub, Hdec. f_equal.
  unfold select_output. rewrite Hkey.
  assert (Ht : truthy_opt (Some key) = true)
    by (destruct key; [contradiction | reflexivity]).
  rewrite Ht. now rewrite (walk_keys_objects _ _ _ Hwalk).
Qed.

(** X9. The three kinds of status never coincide: a recorded status is
    "Timed out" only for the sentinel and "Clean" only for an empty
    value, so a count is never mistaken for either. *)
Theorem status_labels_distinct :
  forall (v : value) (s : str),
    status_of v = inr s ->
    (s = lit "Timed out" <-> v = VStr (lit "timeout")) /\
    (s = lit "Clean" <-> v <> VStr (lit "timeout") /\ truthy v = false).
Proof.
  intros v s Hs. apply status_of_rule in Hs.
  destruct Hs as [|v n Hne Ht Hl|v Hne Ht].
  - split; split; auto.
    + discriminate.
    + intros [H _]. now contradiction H.
  - split; split.
    + intros H. symmetry in H. now apply count_not_timed_out in H.
    + intros H. contradiction.
    + intros H. symmetry in H. now apply count_not_clean in H.
    + intros [_ H]. congruence.
  - split; split; auto.
    + discriminate.
    + intros H. contradiction.
Qed.

(** X10. A timeout ends one tool's run, not the loop: in the results
    the loop leaves, the pair has the sentinel as its findings and
    "Timed out" as its status, and after the notice the remaining tools
    are run as they would be without this one: the same events, and the
    same exception if one is raised. *)
Theorem timeout_does_not_stop_the_loop :
  forall (w : TaskWorld) (repo_url repo_dir tool cmd : str)
         (config : ToolConfig) (rest : list (str * ToolConfig))
         (results : ScanResult) (e : exn),
    dict_get tools tool = Some config ->
    str_format (command config) repo_dir repo_url = inr cmd ->
    subprocess_run w cmd (timeout config) = inl e ->
    is_TimeoutExpired e = true ->
    ~ In tool (keys rest) ->
    let run := scan_tools w repo_url repo_dir ((tool, config) :: rest) results in
    let others := scan_tools w repo_url repo_dir rest results in
    dict_get (status (fst (snd run))) tool = Some (lit "Timed out") /\
    dict_get (findings (fst (snd run))) tool = Some (VStr (lit "timeout")) /\
    fst run
    = Run cmd (timeout config)
        :: Print (Fore_YELLOW ++ tool ++ lit " timed out") :: fst others /\
    snd (snd run) = snd (snd others).
Proof.
  intros w repo_url repo_dir tool cmd config rest results e
         Hcfg Hfmt Hsub Hto Hrest run others.
  unfold run, others. cbn [scan_tools]. rewrite Hfmt.
  unfold run_tool. rewrite Hcfg, Hsub, Hto.
  change (status_of (VStr (lit "timeout"))) with (@inr exn str (lit "Timed out")).
  cbv beta iota.
  destruct (scan_tools_outside w repo_url repo_dir rest
              (set_status (set_findings results tool (VStr (lit "timeout")))
                 tool (lit "Timed out")) results) as [Htr Hraised].
  destruct (scan_tools w repo_url repo_dir rest
              (set_status (set_findings results tool (VStr (lit "timeout")))
                 tool (lit "Timed out"))) as [tr' [r' raised]] eqn:Erest.
  destruct (scan_tools_preserves w repo_url repo_dir tool _ _ _ _ _
              Hrest Erest) as [Hs Hf].
  cbn [fst snd] in *. rewrite Hs, Hf, <- Htr, <- Hraised. simpl.
  rewrite !dict_get_set_eq. repeat split; reflexivity.
Qed.

(** ** The clone directory *)

Lemma split_pieces (sep : char) (s : str) :
  forall piece, In piece (split sep s) -> ~ In sep piece.
Proof.
  induction s as [|c s IH]; intros piece Hin; simpl in Hin.
  - destruct Hin as [<-|[]]. intros [].
  - destruct (N.eqb c sep) eqn:Ec.
    + destruct Hin as [<-|Hin]; [intros [] | now apply IH].
    + destruct (split sep s) as [|w ws] eqn:Es.
      * destruct Hin as [<-|[]]. intros [H|[]].
        apply N.eqb_neq in Ec. congruence.
      * destruct Hin as [<-|Hin].
        -- intros [H|H]; [apply N.eqb_neq in Ec; congruence|].
           apply (IH w); [now left | exact H].
        -- apply IH. now right.
Qed.

Lemma last_In {A} (l : list A) (d : A) : l <> [] -> In (last l d) l.
Proof.
  induction l as [|x l IH]; intros Hne; [now contradiction Hne|].
  destruct l as [|y l]; [now left|].
  right. apply IH. discriminate.
Qed.

Lemma replace_from_keeps (old : str) (s : str) :
  forall skip c, In c (replace_from old [] skip s) -> In c s.
Proof.
  induction s as [|c0 s IH]; intros skip c Hin; [exact Hin|].
  cbn [replace_from] in Hin. destruct skip as [|k].
  - destruct (startswith (c0 :: s) old).
    + right. cbn [app] in Hin. eapply IH; eassumption.
    + destruct Hin as [<-|Hin]; [now left | right; eapply IH; eassumption].
  - right. eapply IH; eassumption.
Qed.

Lemma repo_name_no_slash (repo_url : str) : ~ In 47%N (repo_name repo_url).
Proof.
  unfold repo_name. intros Hin.
  apply (replace_from_keeps (lit ".git")) in Hin.
  eapply split_pieces; [|exact Hin].
  apply last_In, split_nonempty.
Qed.


Lemma split_app_sep (sep : char) (a b : str) :
  split sep (a ++ sep :: b) = split sep a ++ split sep b.
Proof.
  induction a as [|c a IH]; simpl.
  - now rewrite N.eqb_refl.
  - destruct (N.eqb c sep); rewrite IH; [reflexivity|].
    destruct (split sep a) as [|w ws] eqn:Ea; [|reflexivity].
    now destruct (split_nonempty sep a).
Qed.

Lemma split_plain (sep : char) (s : str) :
  ~ In sep s -> split sep s = [s].
Proof.
  induction s as [|c s IH]; intros Hnot; simpl; [reflexivity|].
  destruct (N.eqb c sep) eqn:Ec.
  - apply N.eqb_eq in Ec. exfalso. apply Hnot. now left.
  - rewrite IH; [reflexivity|]. intros H. apply Hnot. now right.
Qed.

Lemma replace_git_plain (name : str) :
  ~ In 46%N name ->
  replace_from (lit ".git") [] 0 name = name /\
  replace_from (lit ".git") [] 0 (name ++ lit ".git") = name.
Proof.
  induction name as [|c name IH]; intros Hnot; [split; reflexivity|].
  assert (Hc : N.eqb 46 c = false).
  { apply N.eqb_neq. intros H. apply Hnot. now left. }
  destruct IH as [IH1 IH2]; [intros H; apply Hnot; now right|].
  split.
  - change (replace_from (lit ".git") [] 0 (c :: name))
      with (if N.eqb 46 c && startswith name (lit "git")
            then [] ++ replace_from (lit ".git") [] 3 name
            else c :: replace_from (lit ".git") [] 0 name).
    rewrite Hc. simpl. now rewrite IH1.
  - change (replace_from (lit ".git") [] 0 ((c :: name) ++ lit ".git"))
      with (if N.eqb 46 c && startswith (name ++ lit ".git") (lit "git")
            then [] ++ replace_from (lit ".git") [] 3 (name ++ lit ".git")
            else c :: replace_from (lit ".git") [] 0 (name ++ lit ".git")).
    rewrite Hc. simpl. now rewrite IH2.
Qed.

(** X12. For a URL whose last path segment is a name without a dot,
    with or without the suffix ".git", the clone directory is named by
    that name. *)
Theorem repo_name_of_plain_segment :
  forall (base name : str),
    ~ In 47%N name ->
    ~ In 46%N name ->
    repo_name (base ++ 47%N :: name ++ lit ".git") = name /\
    repo_name (base ++ 47%N :: name) = name.
Proof.
  intros base name Hslash Hdot.
  destruct (replace_git_plain name Hdot) as [Hplain Hsuffix].
  assert (Hseg : ~ In 47%N (name ++ lit ".git")).
  { intros H. apply in_app_or in H. destruct H as [H|H]; [auto|].
    simpl in H. repeat (destruct H as [H|H]; [discriminate H|]). exact H. }
  unfold repo_name. split.
  - rewrite split_app_sep, last_app_nonempty by apply split_nonempty.
    rewrite (split_plain 47%N _ Hseg). exact Hsuffix.
  - rewrite split_app_sep, last_app_nonempty by apply split_nonempty.
    rewrite (split_plain 47%N _ Hslash). exact Hplain.
Qed.

(** X11. The clone path is the temporary directory, a slash and a name
    that holds no slash (for a temporary directory that is not empty
    and does not end in a slash).  The name need not name a child of
    it: for a URL that ends in a slash the name is empty, so the path is
    the temporary directory itself, and for a last segment "...git" the
    name is "..", its parent. *)
Theorem clone_path_shape :
  (forall (repo_url temp_dir : str),
      temp_dir <> [] ->
      last temp_dir 0%N <> 47%N ->
      ~ In 47%N (repo_name repo_url) /\
      path_join temp_dir (repo_name repo_url)
      = temp_dir ++ lit "/" ++ repo_name repo_url) /\
  (forall (base : str), repo_name (base ++ lit "/") = []) /\
  (forall (base : str), repo_name (base ++ lit "/...git") = lit "..").
Proof.
  split; [|split].
  - intros repo_url temp_dir Hne Hlast.
    pose proof (repo_name_no_slash repo_url) as Hname.
    split; [exact Hname|].
    unfold path_join.
    assert (Hstart : startswith (repo_name repo_url) (lit "/") = false).
    { destruct (repo_name repo_url) as [|c t]; [reflexivity|].
      change (startswith (c :: t) (lit "/"))
        with (N.eqb 47 c && startswith t []).
      destruct (N.eqb 47 c) eqn:Ec; [|reflexivity].
      apply N.eqb_eq in Ec. exfalso. apply Hname. now left. }
    rewrite Hstart.
    destruct temp_dir as [|c t]; [now contradiction Hne|].
    apply N.eqb_neq in Hlast. cbn [nonempty negb orb]. now rewrite Hlast.
  - intros base. unfold repo_name.
    change (base ++ lit "/") with (base ++ 47%N :: []).
    rewrite split_app_sep, last_app_nonempty by apply split_nonempty.
    reflexivity.
  - intros base. unfold repo_name.
    change (base ++ lit "/...git") with (base ++ 47%N :: lit "...git").
    rewrite split_app_sep, last_app_nonempty by apply split_nonempty.
    reflexivity.
Qed.

(** ** A task without error *)

Lemma run_tool_runs_once w tool cmd repo_dir repo_url tr v :
  run_tool w tool cmd repo_dir repo_url = (tr, inr v) ->
  commands_run tr = [cmd].
Proof.
  unfold run_tool.
  destruct (dict_get tools tool) as [config|]; [|discriminate].
  destruct (subprocess_run w cmd (timeout config)) as [e|stdout].
  - destruct (is_TimeoutExpired e); intros H; inversion H; reflexivity.
  - destruct (decode_stdout stdout) as [[e line]|output].
    + destruct (is_JSONDecodeError e); intros H; inversion H; reflexivity.
    + intros H; inversion H; reflexivity.
Qed.

Lemma commands_run_app (a b : list event) :
  commands_run (a ++ b) = commands_run a ++ commands_run b.
Proof.
  induction a as [|ev a IH]; simpl; auto.
  destruct ev; simpl; now rewrite ?IH.
Qed.

(** A loop that ends without an exception has run every tool once and
    recorded each in both maps. *)
Lemma scan_tools_complete w repo_url repo_dir :
  forall items results tr r',
    NoDup (keys (status results) ++ keys items) ->
    keys (findings results) = keys (status results) ->
    scan_tools w repo_url repo_dir items results = (tr, (r', None)) ->
    error r' = error results /\
    keys (status r') = keys (status results) ++ keys items /\
    keys (findings r') = keys (status results) ++ keys items /\
    length (commands_run tr) = length items.
Proof.
  induction items as [|[tool config] rest IH];
    intros results tr r' Hnd Hkeys Hrun; simpl in Hrun.
  - inversion Hrun; subst. simpl. rewrite app_nil_r. auto.
  - assert (Hfresh : ~ In tool (keys (status results))).
    { intros Hin. apply NoDup_remove_2 in Hnd. apply Hnd.
      apply in_or_app. now left. }
    destruct (str_format (command config) repo_dir repo_url) as [e|cmd];
      [discriminate|].
    destruct (run_tool w tool cmd repo_dir repo_url) as [tr0 [e|v]] eqn:Er;
      [discriminate|].
    destruct (status_of v) as [e|s]; [discriminate|].
    destruct (scan_tools w repo_url repo_dir rest
                (set_status (set_findings results tool v) tool s))
      as [tr' [r'' raised'']] eqn:Erest.
    inversion Hrun; subst.
    apply IH in Erest.
    + destruct Erest as (Herr & Hs & Hf & Hn).
      cbn [status findings error set_status set_findings] in Herr, Hs, Hf.
      rewrite keys_set_new in Hs, Hf by assumption.
      rewrite <- app_assoc in Hs, Hf. cbn [app] in Hs, Hf.
      change (keys ((tool, config) :: rest)) with (tool :: keys rest).
      repeat split; auto.
      rewrite commands_run_app, length_app, Hn.
      now rewrite (run_tool_runs_once _ _ _ _ _ _ _ Er).
    + simpl. rewrite keys_set_new by assumption.
      rewrite <- app_assoc. exact Hnd.
    + simpl. rewrite !keys_set_new; rewrite ?Hkeys; auto.
Qed.

(** X13. A task's result without an error is complete: both maps hold
    every tool of the registry, in the registry's order, and one
    command was run for each. *)
Theorem result_without_error_is_complete :
  forall (w : TaskWorld) (repo_url : str),
    NoDup (keys tools) ->
    error (snd (clone_and_scan w repo_url)) = None ->
    keys (status (snd (clone_and_scan w repo_url))) = keys tools /\
    keys (findings (snd (clone_and_scan w repo_url))) = keys tools /\
    length (commands_run (fst (clone_and_scan w repo_url))) = length tools.
Proof.
  intros w repo_url Hnd.
  unfold clone_and_scan, scan_body, clone_repo.
  destruct (mkdtemp w) as [e|temp_dir]; [discriminate|].
  destruct (clone_from w repo_url (path_join temp_dir (repo_name repo_url)))
    as [e|].
  { destruct (cleanup w); discriminate. }
  destruct (nonempty (path_join temp_dir (repo_name repo_url)));
    [|destruct (cleanup w); discriminate].
  destruct (scan_tools w repo_url (path_join temp_dir (repo_name repo_url))
              tools no_results) as [tr [r0 raised]] eqn:Es.
  destruct (cleanup w); [discriminate|].
  destruct raised as [e|]; [discriminate|].
  intros _. cbn [fst snd].
  apply scan_tools_complete in Es; [|exact Hnd|reflexivity].
  destruct Es as (_ & Hs & Hf & Hn).
  rewrite commands_run_app. cbn [commands_run app length].
  auto.
Qed.

(** ** The URLs read *)

Lemma file_lines_chars (s : str) :
  forall l c, In l (file_lines s) -> In c l -> In c s.
Proof.
  induction s as [|c0 s IH]; intros l c Hl Hc; simpl in Hl; [destruct Hl|].
  destruct (N.eqb c0 10) eqn:E0.
  - destruct Hl as [<-|Hl].
    + destruct Hc as [<-|[]]. now left.
    + right. eapply IH; eassumption.
  - destruct (file_lines s) as [|l0 ls] eqn:Es.
    + destruct Hl as [<-|[]]. destruct Hc as [<-|[]]. now left.
    + destruct Hl as [<-|Hl].
      * destruct Hc as [<-|Hc]; [now left|].
        right. apply (IH l0); [now left | exact Hc].
      * right. apply (IH l); [now right | exact Hc].
Qed.

(** A line holds "\n" at most as its last character. *)
Lemma file_lines_shape (s : str) :
  forall l,
    In l (file_lines s) ->
    exists body, (l = body ++ [10%N] \/ l = body) /\ ~ In 10%N body.
Proof.
  induction s as [|c0 s IH]; intros l Hl; simpl in Hl; [destruct Hl|].
  destruct (N.eqb c0 10) eqn:E0.
  - destruct Hl as [<-|Hl]; [|now apply IH].
    apply N.eqb_eq in E0; subst c0.
    exists []. split; [now left | intros []].
  - apply N.eqb_neq in E0.
    destruct (file_lines s) as [|l0 ls] eqn:Es.
    + destruct Hl as [<-|[]]. exists [c0]. split; [now right|].
      intros [H|[]]. congruence.
    + destruct Hl as [<-|Hl]; [|apply IH; now right].
      destruct (IH l0 (or_introl eq_refl)) as (body & Hshape & Hbody).
      exists (c0 :: body). split.
      * destruct Hshape as [-> | ->]; [now left | now right].
      * intros [H|H]; [congruence | contradiction].
Qed.

Lemma translate_newlines_chars (s : str) :
  (forall c, In c (translate_newlines s) -> c <> 13%N /\ (c = 10%N \/ In c s)) /\
  (forall c0 c, In c (translate_newlines (c0 :: s)) ->
                c <> 13%N /\ (c = 10%N \/ In c (c0 :: s))).
Proof.
  induction s as [|a s [IH1 IH2]].
  - split; [intros c []|].
    intros c0 c. simpl. destruct (N.eqb c0 13) eqn:E0.
    + intros [<-|[]]. split; [discriminate | now left].
    + intros [<-|[]]. apply N.eqb_neq in E0. split; [exact E0|].
      right. now left.
  - split; [apply IH2|].
    intros c0 c Hin.
    change (translate_newlines (c0 :: a :: s))
      with (if N.eqb c0 13
            then 10%N :: (if N.eqb a 10 then translate_newlines s
                          else translate_newlines (a :: s))
            else c0 :: translate_newlines (a :: s)) in Hin.
    destruct (N.eqb c0 13) eqn:E0.
    + destruct Hin as [<-|Hin]; [split; [discriminate | now left]|].
      destruct (N.eqb a 10).
      * destruct (IH1 c Hin) as [H13 [H|H]]; split; auto.
        right. right. now right.
      * destruct (IH2 a c Hin) as [H13 [H|H]]; split; auto.
        right. now right.
    + apply N.eqb_neq in E0. destruct Hin as [<-|Hin].
      * split; [exact E0 | right; now left].
      * destruct (IH2 a c Hin) as [H13 [H|H]]; split; auto.
        right. now right.
Qed.

Lemma newline_only_last (x y body : str) :
  x ++ 10%N :: y = body ++ [10%N] -> ~ In 10%N body -> y = [].
Proof.
  revert body. induction x as [|c x IH]; intros body Heq Hbody.
  - destruct body as [|c' body]; simpl in Heq.
    + now inversion Heq.
    + inversion Heq; subst. exfalso. apply Hbody. now left.
  - destruct body as [|c' body]; simpl in Heq.
    + inversion Heq. destruct x; discriminate.
    + inversion Heq; subst. apply (IH body); auto.
      intros H. apply Hbody. now right.
Qed.

Lemma read_repos_In (text u : str) :
  In u (read_repos text) ->
  exists line,
    In line (file_lines (translate_newlines text)) /\
    u = strip line /\ nonempty (strip line) = true.
Proof.
  unfold read_repos. intros Hin. apply in_map_iff in Hin.
  destruct Hin as (line & <- & Hline). apply filter_In in Hline.
  exists line. destruct Hline. auto.
Qed.

(** X14. Every URL read from the input file is non-empty, has no
    whitespace at either end and holds no line break. *)
Theorem urls_read_are_trimmed :
  forall (text u : str),
    In u (read_repos text) ->
    u <> [] /\ strip u = u /\ ~ In 10%N u /\ ~ In 13%N u.
Proof.
  intros text u Hin.
  destruct (read_repos_In text u Hin) as (line & Hline & -> & Hne).
  destruct (strip_split line) as (p & q & Hsplit & _ & _).
  assert (Hsub : forall c, In c (strip line) -> In c line).
  { intros c Hc. rewrite Hsplit. apply in_or_app. right.
    apply in_or_app. now left. }
  assert (Hnot : strip line <> [])
    by (destruct (strip line); [discriminate | discriminate]).
  split; [exact Hnot|]. split; [apply strip_strip|]. split.
  - intros H10.
    destruct (file_lines_shape _ line Hline) as (body & [Hl|Hl] & Hbody).
    + apply in_split in H10. destruct H10 as (a & b & Hab).
      assert (Hb : b ++ q = []).
      { apply (newline_only_last (p ++ a) (b ++ q) body); [|exact Hbody].
        eapply eq_trans; [|exact Hl]. symmetry.
        eapply eq_trans; [exact Hsplit|]. rewrite Hab.
        now rewrite <- !app_assoc. }
      apply app_eq_nil in Hb. destruct Hb as [-> _].
      pose proof (strip_last line Hnot) as Hlast.
      rewrite Hab, last_last in Hlast. discriminate Hlast.
    + apply Hbody. rewrite <- Hl. now apply Hsub.
  - intros H13. apply Hsub in H13.
    apply (file_lines_chars _ line 13%N Hline) in H13.
    destruct (proj1 (translate_newlines_chars text) 13%N H13) as [H _].
    now apply H.
Qed.

(** X15. On an input file that is empty or all whitespace, once the
    tools are found, [main] submits nothing and prints only "No findings
    across all repositories". *)
Theorem blank_file_is_all_clean :
  forall (W : World) (input_file text : str),
    check_tools_installed W = ([], None) ->
    open_read W input_file = inr text ->
    (forall c, In c text -> isspace c = true) ->
    main W input_file = ([Print all_clean_message], Returned).
Proof.
  intros W input_file text Hcheck Hopen Hblank.
  assert (Hrepos : read_repos text = []).
  { destruct (read_repos text) as [|u us] eqn:Er; [reflexivity|].
    assert (Hu : In u (read_repos text)) by (rewrite Er; now left).
    destruct (read_repos_In text u Hu) as (line & Hline & _ & Hne).
    assert (Hl : strip line = []).
    { apply strip_blank. intros c Hc.
      apply (file_lines_chars _ line c Hline) in Hc.
      destruct (proj1 (translate_newlines_chars text) c Hc) as [_ [-> | Hc']];
        [reflexivity | now apply Hblank]. }
    rewrite Hl in Hne. discriminate Hne. }
  unfold main. rewrite Hcheck, Hopen, Hrepos. reflexivity.
Qed.

(** ** The report of a run *)

Lemma submit_all_In_nth (W : World) (repos : list str) :
  forall i f,
    In f (submit_all W i repos) ->
    exists j url, nth_error repos j = Some url /\ f = submit W (i + j) url.
Proof.
  induction repos as [|u repos IH]; intros i f; simpl; [intros []|].
  intros [<-|Hin].
  - exists 0, u. split; [reflexivity|]. now rewrite Nat.add_0_r.
  - destruct (IH (S i) f Hin) as (j & url & Hnth & ->).
    exists (S j), url. split; [exact Hnth|]. f_equal. lia.
Qed.

(** X16. When the URLs listed are distinct, no result is lost: whatever
    the order of completion, the report holds for each URL the result
    of the task submitted for it. *)
Theorem distinct_urls_keep_every_result :
  forall (W : World) (repos : list str) (i : nat) (url : str),
    NoDup repos ->
    nth_error repos i = Some url ->
    dict_get (collect W repos) url
    = Some (Scanned (snd (clone_and_scan (task_world W i) url))).
Proof.
  intros W repos i url Hnd Hnth.
  assert (Hin : In url repos) by (eapply nth_error_In; eassumption).
  destruct (collect_last_completed W repos url Hin)
    as (before & f & after & result & Hdone & Hurl & _ & Hres & Hget).
  assert (Hf : In f (submit_all W 0 repos)).
  { eapply Permutation_in; [apply as_completed_perm|].
    rewrite Hdone. apply in_or_app. right. now left. }
  destruct (submit_all_In_nth W repos 0 f Hf) as (j & url' & Hj & ->).
  rewrite submit_url in Hurl. subst url'.
  assert (Hij : i = j).
  { apply (proj1 (NoDup_nth_error repos) Hnd).
    - apply nth_error_Some. congruence.
    - congruence. }
  subst j. rewrite submit_result in Hres. inversion Hres; subst result.
  exact Hget.
Qed.

Lemma dict_set_In {V} (g : dict V) (k : str) (v : V) :
  forall u d, In (u, d) (dict_set g k v) -> (u = k /\ d = v) \/ In (u, d) g.
Proof.
  induction g as [|[k0 v0] g IH]; intros u d Hin; simpl in Hin.
  - destruct Hin as [Heq|[]]. inversion Heq. now left.
  - destruct (str_eqb k0 k) eqn:E.
    + apply str_eqb_eq in E; subst k0.
      destruct Hin as [Heq|Hin]; [inversion Heq; now left|].
      right. now right.
    + destruct Hin as [Heq|Hin]; [right; now left|].
      destruct (IH u d Hin) as [H|H]; [now left | right; now right].
Qed.

Lemma fold_record_entries (done : list future) :
  forall g u d,
    In (u, d) (fold_left record_result done g) ->
    In (u, d) g \/ exists f, In f done /\ fut_url f = u /\ d = entry_of f.
Proof.
  induction done as [|f done IH]; intros g u d Hin; simpl in Hin;
    [now left|].
  destruct (IH _ u d Hin) as [Hg|(f' & Hf' & Hu & Hd)].
  - rewrite record_result_set in Hg.
    destruct (dict_set_In g (fut_url f) (entry_of f) u d Hg) as [[-> ->]|Hg'].
    + right. exists f. split; [now left | auto].
    + now left.
  - right. exists f'. split; [now right | auto].
Qed.

(** Every entry of the report is the result of a task of the run. *)
Lemma collect_entries (W : World) (repos : list str) (u : str) (data : entry) :
  In (u, data) (collect W repos) ->
  exists i,
    nth_error repos i = Some u /\
    data = Scanned (snd (clone_and_scan (task_world W i) u)).
Proof.
  intros Hin. unfold collect in Hin.
  destruct (fold_record_entries _ _ _ _ Hin) as [[]|(f & Hf & Hu & Hd)].
  assert (Hf' : In f (submit_all W 0 repos))
    by (eapply Permutation_in; [apply as_completed_perm | exact Hf]).
  destruct (submit_all_In_nth W repos 0 f Hf') as (j & url & Hj & ->).
  rewrite submit_url in Hu. subst url.
  exists j. split; [exact Hj|].
  rewrite Hd. unfold entry_of. now rewrite submit_result.
Qed.

(** X17. A run in which every task ends quiet (no error, and only empty
    results or timeouts) returns after printing "No findings across all
    repositories": tools that timed out leave no mark in the text. *)
Theorem quiet_run_prints_all_clean :
  forall (W : World) (input_file text : str),
    check_tools_installed W = ([], None) ->
    open_read W input_file = inr text ->
    (forall i url,
        nth_error (read_repos text) i = Some url ->
        quiet (snd (clone_and_scan (task_world W i) url))) ->
    main W input_file
    = (map Submit (read_repos text)
         ++ flat_map fut_events
              (as_completed (completion W)
                 (submit_all W 0 (read_repos text)))
         ++ [Print all_clean_message],
       Returned).
Proof.
  intros W input_file text Hcheck Hopen Hquiet.
  assert (Hlines : report_lines (collect W (read_repos text)) = inr (false, [])).
  { apply report_lines_quiet. intros u data Hin.
    destruct (collect_entries W _ u data Hin) as (i & Hi & ->).
    eexists. split; [reflexivity|]. now apply Hquiet. }
  unfold main. rewrite Hcheck, Hopen.
  unfold format_report. rewrite Hlines. simpl.
  now rewrite <- app_assoc.
Qed.

(** ** The report, further *)

Lemma leak_lines_object (leak : value) :
  is_object leak -> exists lines, leak_lines leak = inr lines.
Proof. intros [d ->]. eexists. reflexivity. Qed.

Lemma secret_lines_object (secret : value) :
  secret_object secret -> exists lines, secret_lines secret = inr lines.
Proof.
  intros [[d ->] Hmeta]. unfold secret_lines.
  cbn [py_get bindE].
  destruct (Hmeta _ eq_refl) as [[d1 Hd1] Hdata]. rewrite Hd1 in *.
  cbn [py_get bindE].
  destruct (Hdata _ eq_refl) as [[d2 Hd2] Hgit]. rewrite Hd2 in *.
  cbn [py_get bindE].
  destruct (Hgit _ eq_refl) as [d3 Hd3]. rewrite Hd3.
  cbn [py_get bindE]. eexists. reflexivity.
Qed.

Lemma concat_lines_total (f : value -> exn + list str) (P : value -> Prop) :
  (forall x, P x -> exists lines, f x = inr lines) ->
  forall l, Forall P l -> exists lines, concat_lines f l = inr lines.
Proof.
  intros Hf l Hall. induction Hall as [|x l Hx Hl [rest IH]].
  - eexists. reflexivity.
  - destruct (Hf x Hx) as [here Hhere]. simpl. rewrite Hhere, IH.
    eexists. reflexivity.
Qed.

Lemma tool_sections_documented (items : list (str * value)) :
  (forall tool v, In (tool, v) items -> documented_findings tool v) ->
  exists lines, tool_sections items = inr lines.
Proof.
  induction items as [|[tool found] rest IH]; intros Hdoc.
  - eexists. reflexivity.
  - destruct IH as [rest' Hrest];
      [intros t v Hin; apply Hdoc; now right|].
    cbn [tool_sections]. rewrite Hrest.
    destruct (Hdoc tool found (or_introl eq_refl)) as [Hf|[Hto|[Htr Hgl]]].
    + rewrite Hf. eexists. reflexivity.
    + rewrite Hto. eexists. reflexivity.
    + destruct (negb (truthy found) || is_timeout found);
        [eexists; reflexivity|].
      destruct (str_eqb tool (lit "trufflehog")) eqn:Et.
      * apply str_eqb_eq in Et. destruct (Htr Et) as (l & -> & Hall).
        destruct (concat_lines_total secret_lines secret_object
                    secret_lines_object l Hall) as [body Hbody].
        cbn [py_iter bindE]. rewrite Hbody. eexists. reflexivity.
      * destruct (str_eqb tool (lit "gitleaks")) eqn:Eg.
        -- apply str_eqb_eq in Eg. destruct (Hgl Eg) as (l & -> & Hall).
           destruct (concat_lines_total leak_lines is_object
                       leak_lines_object l Hall) as [body Hbody].
           cbn [py_iter bindE]. rewrite Hbody. eexists. reflexivity.
        -- eexists. reflexivity.
Qed.

(** X18. The reporter does not raise on results in the shape the two
    tools document: if in every entry the findings of trufflehog are a
    list of secrets and those of gitleaks a list of objects (or either
    is empty or timed out), the report is rendered. *)
Theorem documented_findings_render :
  forall (global_report : dict entry),
    (forall u data, In (u, data) global_report ->
       exists r, data = Scanned r /\
                 forall tool v, In (tool, v) (findings r) ->
                                documented_findings tool v) ->
    exists body, format_report global_report = inr body.
Proof.
  intros global_report Hall.
  assert (Hlines : exists shown, report_lines global_report = inr shown).
  { induction global_report as [|[u data] rest IH].
    - eexists. reflexivity.
    - destruct IH as [more Hmore];
        [intros u' d' Hin; apply (Hall u' d'); now right|].
      destruct (Hall u data (or_introl eq_refl)) as (r & -> & Hdoc).
      destruct (tool_sections_documented (findings r) Hdoc) as [sec Hsec].
      cbn [report_lines]. unfold repo_section. rewrite Hsec, Hmore.
      match goal with
      | |- context [if ?b then _ else _] => destruct b
      end; eexists; reflexivity. }
  destruct Hlines as [[flag lines] Hlines].
  unfold format_report. rewrite Hlines.
  destruct flag; eexists; reflexivity.
Qed.

Lemma report_lines_header (items : list (str * entry)) :
  forall flag lines u r tool s v,
    report_lines items = inr (flag, lines) ->
    In (u, Scanned r) items ->
    In (tool, s) (status r) ->
    dict_get (findings r) tool = Some v ->
    truthy v = true ->
    is_timeout v = false ->
    flag = true /\ In (repo_header u) lines.
Proof.
  induction items as [|[u0 data] rest IH];
    intros flag lines u r tool s v Hrun Hin Hs Hv Ht Hto; [destruct Hin|].
  simpl in Hrun.
  destruct (repo_section u0 data) as [e|[here_flag here]] eqn:Ehere;
    [discriminate|].
  destruct (report_lines rest) as [e|[more_flag more]] eqn:Emore;
    [discriminate|].
  simpl in Hrun. inversion Hrun; subst flag lines.
  destruct Hin as [Heq|Hin].
  - inversion Heq; subst u0 data.
    assert (Hfound :
              existsb
                (fun ts =>
                   match dict_get (findings r) (fst ts) with
                   | Some v => truthy v && negb (is_timeout v)
                   | None => false
                   end) (status r) = true).
    { apply existsb_exists. exists (tool, s). split; [exact Hs|].
      simpl. now rewrite Hv, Ht, Hto. }
    unfold repo_section in Ehere. rewrite Hfound, orb_true_r in Ehere.
    destruct (tool_sections (findings r)) as [e|sections];
      [discriminate|].
    simpl in Ehere. inversion Ehere; subst here_flag here.
    split; [reflexivity|]. apply in_or_app. left.
    apply in_or_app. right. now left.
  - destruct (IH more_flag more u r tool s v eq_refl Hin Hs Hv Ht Hto)
      as [-> Hl].
    split; [apply orb_true_r|]. apply in_or_app. now right.
Qed.

(** X19. Whenever the report is rendered, every repository for which a
    tool with a status has a non-empty result other than the timeout
    sentinel is named in the text, by its URL header. *)
Theorem rendered_report_names_repositories :
  forall (global_report : dict entry) (body u tool s : str)
         (r : ScanResult) (v : value),
    format_report global_report = inr body ->
    In (u, Scanned r) global_report ->
    In (tool, s) (status r) ->
    dict_get (findings r) tool = Some v ->
    truthy v = true ->
    is_timeout v = false ->
    exists before after, body = before ++ repo_header u ++ after.
Proof.
  intros global_report body u tool s r v Hfmt Hin Hs Hv Ht Hto.
  unfold format_report in Hfmt.
  destruct (report_lines global_report) as [e|[flag lines]] eqn:Elines;
    [discriminate|].
  destruct (report_lines_header global_report flag lines u r tool s v
              Elines Hin Hs Hv Ht Hto) as [-> Hline].
  simpl in Hfmt. inversion Hfmt; subst body.
  now apply join_names.
Qed.

(** X20. A quiet repository leaves no trace: taking its entry out of
    the report changes neither the text nor whether rendering raises. *)
Theorem quiet_entry_is_invisible :
  forall (before after : list (str * entry)) (u : str) (r : ScanResult),
    quiet r ->
    format_report (before ++ (u, Scanned r) :: after)
    = format_report (before ++ after).
Proof.
  intros before after u r Hq.
  assert (Hlines : report_lines (before ++ (u, Scanned r) :: after)
                   = report_lines (before ++ after)).
  { induction before as [|[u0 data] rest IH].
    - cbn [app report_lines]. rewrite (repo_section_quiet u r Hq).
      cbn [bindE]. destruct (report_lines after) as [e|[flag lines]];
        reflexivity.
    - cbn [app report_lines]. now rewrite IH. }
  unfold format_report. now rewrite Hlines.
Qed.

End Scanner.

(** ** The script on the example worlds *)

Lemma TOOLS_keys_NoDup : NoDup (keys TOOLS).
Proof.
  repeat constructor; simpl; intros H;
    repeat (destruct H as [H|H]; [discriminate H|]); exact H.
Qed.

(** C1 at a task whose trufflehog run timed out. *)
Lemma status_three_way_rule_witness :
  let r := snd (clone_and_scan json_loads_sample format_fields TOOLS
                  task_timeout demo_url) in
  NoDup (keys TOOLS) /\
  dict_get (status r) (lit "trufflehog") = Some (lit "Timed out") /\
  exists config repo_dir cmd tr v,
    dict_get TOOLS (lit "trufflehog") = Some config /\
    format_fields (command config) repo_dir demo_url = inr cmd /\
    run_tool json_loads_sample TOOLS task_timeout (lit "trufflehog") cmd
      repo_dir demo_url = (tr, inr v) /\
    dict_get (findings r) (lit "trufflehog") = Some v /\
    status_rule v (lit "Timed out") /\
    ((exists e, subprocess_run task_timeout cmd (timeout config) = inl e /\
                is_TimeoutExpired e = true) ->
     v = VStr (lit "timeout") /\
     lit "Timed out" = lit "Timed out" /\
     lit "Timed out" <> lit "Clean" /\
     forall count, lit "Timed out" <> str_of_nat count ++ lit " findings").
Proof.
  intros r. split; [exact TOOLS_keys_NoDup|]. split; [reflexivity|].
  apply (status_three_way_rule json_loads_sample format_fields TOOLS
           task_timeout demo_url (lit "trufflehog") (lit "Timed out")).
  - exact TOOLS_keys_NoDup.
  - reflexivity.
Defined.

(** The same task: gitleaks reported one finding. *)
Example status_counts_findings :
  status (snd (clone_and_scan json_loads_sample format_fields TOOLS
                 task_timeout demo_url))
  = [(lit "trufflehog", lit "Timed out"); (lit "gitleaks", lit "1 findings")].
Proof. reflexivity. Qed.

(** C2 at the gitleaks run of that task. *)
Lemma nested_key_extraction_witness :
  let stdout :=
    lit "{" ++ quoted (lit "Findings") ++ lit ": [{"
      ++ quoted (lit "RuleID") ++ lit ": " ++ quoted (lit "X") ++ lit "}]}" in
  let record :=
    VDict [(lit "Findings", VList [VDict [(lit "RuleID", VStr (lit "X"))]])] in
  let final := VList [VDict [(lit "RuleID", VStr (lit "X"))]] in
  dict_get TOOLS (lit "gitleaks") = Some gitleaks_config /\
  output_key gitleaks_config = Some (lit "Findings") /\
  lit "Findings" <> [] /\
  subprocess_run task_timeout gitleaks_cmd (timeout gitleaks_config)
  = inr stdout /\
  decode_stdout json_loads_sample stdout = inr [record] /\
  walk_objects (split 46%N (lit "Findings")) record = Some final /\
  run_tool json_loads_sample TOOLS task_timeout (lit "gitleaks") gitleaks_cmd
    demo_dir demo_url
  = ([Run gitleaks_cmd (timeout gitleaks_config)],
     inr (if truthy final then final else VNone)).
Proof.
  intros stdout record final.
  assert (H1 : dict_get TOOLS (lit "gitleaks") = Some gitleaks_config)
    by reflexivity.
  assert (H2 : output_key gitleaks_config = Some (lit "Findings"))
    by reflexivity.
  assert (H3 : lit "Findings" <> []) by discriminate.
  assert (H4 : subprocess_run task_timeout gitleaks_cmd
                 (timeout gitleaks_config) = inr stdout) by reflexivity.
  assert (H5 : decode_stdout json_loads_sample stdout = inr [record])
    by reflexivity.
  assert (H6 : walk_objects (split 46%N (lit "Findings")) record = Some final)
    by reflexivity.
  do 6 (split; [assumption|]).
  exact (proj1 (nested_key_extraction json_loads_sample TOOLS)
           task_timeout (lit "gitleaks") gitleaks_cmd demo_dir demo_url
           (lit "Findings") stdout gitleaks_config [record] final
           H1 H2 H3 H4 H5 H6).
Defined.

(** C9 at a gitleaks run that printed a top-level array. *)
Lemma non_object_record_is_clean_witness :
  let left_by_loop :=
    fst (snd (scan_tools json_loads_sample format_fields TOOLS task_array
                demo_url demo_dir [(lit "gitleaks", gitleaks_config)]
                no_results)) in
  dict_get TOOLS (lit "gitleaks") = Some gitleaks_config /\
  output_key gitleaks_config = Some (lit "Findings") /\
  lit "Findings" <> [] /\
  format_fields (command gitleaks_config) demo_dir demo_url = inr gitleaks_cmd /\
  subprocess_run task_array gitleaks_cmd (timeout gitleaks_config)
  = inr (lit "[1, 2]") /\
  decode_stdout json_loads_sample (lit "[1, 2]")
  = inr [VList [VInt 1; VInt 2]] /\
  (forall d, VList [VInt 1; VInt 2] <> VDict d) /\
  ~ In (lit "gitleaks") (keys (@nil (str * ToolConfig))) /\
  run_tool json_loads_sample TOOLS task_array (lit "gitleaks") gitleaks_cmd
    demo_dir demo_url
  = ([Run gitleaks_cmd (timeout gitleaks_config)], inr (VList [])) /\
  scan_tools json_loads_sample format_fields TOOLS task_array demo_url demo_dir
    [(lit "gitleaks", gitleaks_config)] no_results
  = ([Run gitleaks_cmd (timeout gitleaks_config)],
     (set_status (set_findings no_results (lit "gitleaks") (VList []))
        (lit "gitleaks") (lit "Clean"),
      None)) /\
  dict_get (status left_by_loop) (lit "gitleaks") = Some (lit "Clean") /\
  dict_get (findings left_by_loop) (lit "gitleaks") = Some (VList []).
Proof.
  intros left_by_loop.
  assert (H7 : forall d, VList [VInt 1; VInt 2] <> VDict d)
    by (intros d; discriminate).
  assert (H8 : ~ In (lit "gitleaks") (keys (@nil (str * ToolConfig))))
    by (intros []).
  do 8 (split; [first [reflexivity | discriminate | exact H7 | exact H8]|]).
  exact (non_object_record_is_clean json_loads_sample format_fields TOOLS
           task_array (lit "gitleaks") gitleaks_cmd demo_dir demo_url
           (lit "Findings") (lit "[1, 2]") gitleaks_config
           (VList [VInt 1; VInt 2]) [] [] no_results
           eq_refl eq_refl (fun H => nil_cons (eq_sym H)) eq_refl eq_refl
           eq_refl H7 H8).
Defined.


(** C5 at a trufflehog run whose second line is not JSON. *)
Lemma decode_failure_is_clean_witness :
  let first_line :=
    lit "{" ++ quoted (lit "DetectorName") ++ lit ": "
      ++ quoted (lit "AWS") ++ lit "}" in
  let stdout := first_line ++ 10%N :: lit "oops" in
  let e := Exn JSONDecodeError (lit "Expecting value: line 1 column 1 (char 0)") in
  let diagnostic :=
    Fore_YELLOW ++ lit "trufflehog" ++ lit " JSON error: " ++ str_of_exn e
      ++ lit " (line: " ++ prefix 200 (lit "oops") ++ lit ")" in
  dict_get TOOLS (lit "trufflehog") = Some trufflehog_config /\
  format_fields (command trufflehog_config) demo_dir demo_url
  = inr trufflehog_cmd /\
  subprocess_run task_bad_json trufflehog_cmd (timeout trufflehog_config)
  = inr stdout /\
  split 10%N (strip stdout) = [first_line] ++ lit "oops" :: [] /\
  (forall l, In l [first_line] -> nonempty (strip l) = true ->
             exists v, json_loads_sample l = inr v) /\
  nonempty (strip (lit "oops")) = true /\
  json_loads_sample (lit "oops") = inl e /\
  is_JSONDecodeError e = true /\
  run_tool json_loads_sample TOOLS task_bad_json (lit "trufflehog")
    trufflehog_cmd demo_dir demo_url
  = ([Run trufflehog_cmd (timeout trufflehog_config); Print diagnostic],
     inr VNone) /\
  VNone <> VStr (lit "timeout") /\
  scan_tools json_loads_sample format_fields TOOLS task_bad_json demo_url
    demo_dir [(lit "trufflehog", trufflehog_config)] no_results
  = ([Run trufflehog_cmd (timeout trufflehog_config); Print diagnostic],
     (set_status (set_findings no_results (lit "trufflehog") VNone)
        (lit "trufflehog") (lit "Clean"),
      None)).
Proof.
  intros first_line stdout e diagnostic.
  assert (Hok : forall l, In l [first_line] -> nonempty (strip l) = true ->
                          exists v, json_loads_sample l = inr v).
  { intros l [<-|[]] _. eexists. reflexivity. }
  do 8 (split; [first [reflexivity | exact Hok]|]).
  exact (decode_failure_is_clean json_loads_sample format_fields TOOLS
           task_bad_json (lit "trufflehog") trufflehog_cmd demo_dir demo_url
           stdout (lit "oops") trufflehog_config [first_line] [] e no_results
           eq_refl eq_refl eq_refl eq_refl Hok eq_refl eq_refl eq_refl).
Defined.

(** C3 at a task whose clone fails. *)
Lemma clone_failure_recorded_witness :
  let r := snd (clone_and_scan json_loads_sample format_fields TOOLS
                  task_clone_fails demo_url) in
  let e := Exn OtherException (lit "Cmd('git') failed due to: exit code(128)") in
  mkdtemp task_clone_fails = inr demo_tmp /\
  clone_from task_clone_fails demo_url (path_join demo_tmp (repo_name demo_url))
  = Some e /\
  snd (clone_repo task_clone_fails demo_url demo_tmp) = None /\
  error r <> None /\
  (cleanup task_clone_fails = None ->
   error r = Some (lit "Clone failed: " ++ demo_url)) /\
  findings r = [] /\
  status r = [] /\
  commands_run (fst (clone_and_scan json_loads_sample format_fields TOOLS
                       task_clone_fails demo_url)) = [].
Proof.
  intros r e.
  do 2 (split; [reflexivity|]).
  exact (clone_failure_recorded json_loads_sample format_fields TOOLS
           task_clone_fails demo_url demo_tmp e eq_refl eq_refl).
Defined.

(** C4 as stated fails.  When gitleaks raises after trufflehog found
    nothing, the entry that records the error keeps trufflehog's result
    in both maps.  When gitleaks reports a number, the task records the
    exception of the status expression, and the run then ends with an
    exception of the reporter, no report printed. *)
Lemma exception_keeps_earlier_results :
  let r := snd (clone_and_scan json_loads_sample format_fields TOOLS
                  task_leaks_raises demo_url) in
  let e :=
    Exn OtherException
      (lit "'utf-8' codec can't decode byte 0xff in position 0: invalid start byte") in
  (snd (snd (scan_body json_loads_sample format_fields TOOLS task_leaks_raises
               demo_url no_results)) = Some e /\
   error r = Some (lit "Error scanning " ++ demo_url ++ lit ": " ++ str_of_exn e) /\
   findings r = [(lit "trufflehog", VNone)] /\
   status r = [(lit "trufflehog", lit "Clean")] /\
   ~ (findings r = [] /\ status r = [])) /\
  (snd (snd (scan_body json_loads_sample format_fields TOOLS
               (task_world world_number 0) demo_url no_results))
   = Some (Exn TypeError (lit "object of type 'int' has no len()")) /\
   snd (main json_loads_sample format_fields ascii_upper str_sample TOOLS
          world_number (lit "repos.txt"))
   = Uncaught (Exn TypeError (lit "'int' object is not iterable"))).
Proof.
  intros r e. split.
  - repeat (split; [reflexivity|]).
    intros [H _]. discriminate H.
  - split; vm_compute; reflexivity.
Qed.

(** C4, as the script has it, at the same task. *)
Lemma task_exception_recorded_witness :
  let w := task_world world_leaks_raises 0 in
  let body :=
    scan_body json_loads_sample format_fields TOOLS w demo_url no_results in
  let e :=
    Exn OtherException
      (lit "'utf-8' codec can't decode byte 0xff in position 0: invalid start byte") in
  let r :=
    set_error (fst (snd body))
      (lit "Error scanning " ++ demo_url ++ lit ": " ++ str_of_exn e) in
  let scanned :=
    map Submit [demo_url]
      ++ flat_map fut_events
           (as_completed (completion world_leaks_raises)
              (submit_all json_loads_sample format_fields TOOLS
                 world_leaks_raises 0 [demo_url])) in
  NoDup (keys TOOLS) /\
  nth_error [demo_url] 0 = Some demo_url /\
  body = (fst body, (fst (snd body), Some e)) /\
  clone_and_scan json_loads_sample format_fields TOOLS w demo_url
  = (fst body, r) /\
  fut_result (submit json_loads_sample format_fields TOOLS world_leaks_raises
                0 demo_url) = inr r /\
  ((status r = [] /\ findings r = [] /\ commands_run (fst body) = []) \/
   (exists temp_dir raised,
       mkdtemp w = inr temp_dir /\
       clone_from w demo_url (path_join temp_dir (repo_name demo_url)) = None /\
       tool_records json_loads_sample format_fields TOOLS w demo_url
         (path_join temp_dir (repo_name demo_url)) TOOLS
         (status r) (findings r) raised /\
       (cleanup w = Some e \/ cleanup w = None /\ raised = Some e))) /\
  (exists n,
      keys (status r) = firstn n (keys TOOLS) /\
      (keys (findings r) = firstn n (keys TOOLS) \/
       keys (findings r) = firstn (S n) (keys TOOLS))) /\
  (forall u, In u [demo_url] ->
     exists result,
       dict_get (collect json_loads_sample format_fields TOOLS
                   world_leaks_raises [demo_url]) u = Some (Scanned result)) /\
  (forall input_file text,
      check_tools_installed TOOLS world_leaks_raises = ([], None) ->
      open_read world_leaks_raises input_file = inr text ->
      read_repos text = [demo_url] ->
      (forall report_body,
          format_report ascii_upper str_sample
            (collect json_loads_sample format_fields TOOLS world_leaks_raises
               [demo_url]) = inr report_body ->
          main json_loads_sample format_fields ascii_upper str_sample TOOLS
            world_leaks_raises input_file
          = (scanned ++ [Print report_body], Returned)) /\
      (forall e',
          format_report ascii_upper str_sample
            (collect json_loads_sample format_fields TOOLS world_leaks_raises
               [demo_url]) = inl e' ->
          main json_loads_sample format_fields ascii_upper str_sample TOOLS
            world_leaks_raises input_file
          = (scanned, Uncaught e'))).
Proof.
  intros w body e r scanned.
  assert (Hbody : body = (fst body, (fst (snd body), Some e)))
    by (vm_compute; reflexivity).
  split; [exact TOOLS_keys_NoDup|]. split; [reflexivity|].
  split; [exact Hbody|].
  exact (task_exception_recorded json_loads_sample format_fields ascii_upper
           str_sample TOOLS world_leaks_raises [demo_url] 0 demo_url
           (fst body) (fst (snd body)) e TOOLS_keys_NoDup eq_refl Hbody).
Defined.

(** The records of that task: trufflehog returned null, labelled
    "Clean", before gitleaks raised. *)
Example leaks_raises_records :
  let w := task_world world_leaks_raises 0 in
  let r := snd (clone_and_scan json_loads_sample format_fields TOOLS w
                  demo_url) in
  status r = [(lit "trufflehog", lit "Clean")] /\
  findings r = [(lit "trufflehog", VNone)] /\
  commands_run (fst (clone_and_scan json_loads_sample format_fields TOOLS w
                       demo_url))
  = [trufflehog_cmd; gitleaks_cmd].
Proof. vm_compute. repeat split; reflexivity. Qed.

(** C6 on a host without gitleaks, and on one that has both tools. *)
Lemma missing_tools_abort_witness :
  (In (lit "gitleaks") (keys TOOLS) /\
   truthy_opt (shutil_which world_no_gitleaks (lit "gitleaks")) = false /\
   In (lit "gitleaks") (missing_tools TOOLS world_no_gitleaks) /\
   main json_loads_sample format_fields ascii_upper str_sample TOOLS
     world_no_gitleaks (lit "repos.txt")
   = ([Print (Fore_RED ++ lit "Missing tools: "
                ++ join (lit ", ") (missing_tools TOOLS world_no_gitleaks))],
      SystemExit 1) /\
   exists a b,
     join (lit ", ") (missing_tools TOOLS world_no_gitleaks)
     = a ++ lit "gitleaks" ++ b) /\
  ((forall tool, In tool (keys TOOLS) ->
                 truthy_opt (shutil_which world_twice tool) = true) /\
   check_tools_installed TOOLS world_twice = ([], None)).
Proof.
  assert (Hin : In (lit "gitleaks") (keys TOOLS)) by (right; left; reflexivity).
  assert (Hall : forall tool, In tool (keys TOOLS) ->
                   truthy_opt (shutil_which world_twice tool) = true).
  { intros tool [<-|[<-|[]]]; reflexivity. }
  split.
  - do 2 (split; [first [exact Hin | reflexivity]|]).
    exact (proj1 (missing_tools_abort json_loads_sample format_fields
                    ascii_upper str_sample TOOLS world_no_gitleaks
                    (lit "repos.txt"))
             (lit "gitleaks") Hin eq_refl).
  - split; [exact Hall|].
    exact (proj2 (missing_tools_abort json_loads_sample format_fields
                    ascii_upper str_sample TOOLS world_twice (lit "repos.txt"))
             Hall).
Defined.

(** The diagnostic of that host. *)
Example missing_gitleaks_diagnostic :
  main json_loads_sample format_fields ascii_upper str_sample TOOLS
    world_no_gitleaks (lit "repos.txt")
  = ([Print (Fore_RED ++ lit "Missing tools: gitleaks")], SystemExit 1).
Proof. reflexivity. Qed.

(** C7 on a file that lists [demo_url] twice, around a blank line. *)
Lemma dispatch_nonblank_lines_witness :
  let text := lit "  " ++ demo_url ++ [13%N; 10%N; 10%N] ++ demo_url ++ [10%N] in
  let urls :=
    filter nonempty (map strip (file_lines (translate_newlines text))) in
  let tr :=
    fst (main json_loads_sample format_fields ascii_upper str_sample TOOLS
           world_twice (lit "repos.txt")) in
  check_tools_installed TOOLS world_twice = ([], None) /\
  open_read world_twice (lit "repos.txt") = inr text /\
  submitted tr = urls /\
  (forall u, count_occ str_eq_dec (submitted tr) u = count_occ str_eq_dec urls u) /\
  (forall i url,
      nth_error urls i = Some url ->
      nth_error (submit_all json_loads_sample format_fields TOOLS world_twice 0 urls) i
      = Some (submit json_loads_sample format_fields TOOLS world_twice i url)) /\
  Permutation
    (map fut_url
       (as_completed (completion world_twice)
          (submit_all json_loads_sample format_fields TOOLS world_twice 0 urls)))
    urls.
Proof.
  intros text urls tr.
  do 2 (split; [reflexivity|]).
  exact (dispatch_nonblank_lines json_loads_sample format_fields ascii_upper
           str_sample TOOLS world_twice (lit "repos.txt") text
           eq_refl eq_refl).
Defined.

(** Both occurrences are submitted. *)
Example twice_listed_twice_submitted :
  submitted
    (fst (main json_loads_sample format_fields ascii_upper str_sample TOOLS
            world_twice (lit "repos.txt")))
  = [demo_url; demo_url].
Proof. vm_compute. reflexivity. Qed.

(** C10 on the same run: the task whose clone failed completes last,
    and its result is the one entry of the report. *)
Lemma report_keeps_last_completed_witness :
  let repos := [demo_url; demo_url] in
  let done :=
    as_completed (completion world_twice)
      (submit_all json_loads_sample format_fields TOOLS world_twice 0 repos) in
  let global_report :=
    collect json_loads_sample format_fields TOOLS world_twice repos in
  let body := Fore_RED ++ 10%N :: lit "ERROR: Clone failed: " ++ demo_url in
  In demo_url repos /\
  (exists before f after result,
      done = before ++ f :: after /\
      fut_url f = demo_url /\
      (forall h, In h after -> fut_url h <> demo_url) /\
      fut_result f = inr result /\
      dict_get global_report demo_url = Some (Scanned result)) /\
  check_tools_installed TOOLS world_twice = ([], None) /\
  open_read world_twice (lit "repos.txt")
  = inr (lit "  " ++ demo_url ++ [13%N; 10%N; 10%N] ++ demo_url ++ [10%N]) /\
  read_repos (lit "  " ++ demo_url ++ [13%N; 10%N; 10%N] ++ demo_url ++ [10%N])
  = repos /\
  format_report ascii_upper str_sample global_report = inr body /\
  main json_loads_sample format_fields ascii_upper str_sample TOOLS world_twice
    (lit "repos.txt")
  = (map Submit repos ++ flat_map fut_events done ++ [Print body], Returned).
Proof.
  intros repos done global_report body.
  assert (Hin : In demo_url repos) by (left; reflexivity).
  assert (Hread : read_repos (lit "  " ++ demo_url ++ [13%N; 10%N; 10%N]
                                ++ demo_url ++ [10%N]) = repos)
    by (vm_compute; reflexivity).
  assert (Hfmt : format_report ascii_upper str_sample global_report = inr body)
    by (vm_compute; reflexivity).
  destruct (report_keeps_last_completed json_loads_sample format_fields
              ascii_upper str_sample TOOLS world_twice repos)
    as (_ & _ & _ & _ & Hlast & Hmain).
  split; [exact Hin|]. split; [exact (Hlast demo_url Hin)|].
  do 2 (split; [reflexivity|]).
  split; [exact Hread|]. split; [exact Hfmt|].
  exact (Hmain (lit "repos.txt") _ body eq_refl eq_refl Hread Hfmt).
Defined.

(** The report of that run: one entry, the failed clone's. *)
Example twice_listed_one_entry :
  collect json_loads_sample format_fields TOOLS world_twice [demo_url; demo_url]
  = [(demo_url,
      Scanned {| findings := []; status := [];
                 error := Some (lit "Clone failed: " ++ demo_url) |})].
Proof. vm_compute. reflexivity. Qed.

(** A number under "Findings" is truthy and has no length: the status
    expression raises, the task records the error, and gitleaks is left
    with its findings and without a status. *)
Example number_has_no_status :
  let r := snd (clone_and_scan json_loads_sample format_fields TOOLS
                  task_number demo_url) in
  findings r = [(lit "trufflehog", VNone); (lit "gitleaks", VInt 5)] /\
  status r = [(lit "trufflehog", lit "Clean")] /\
  error r = Some (lit "Error scanning " ++ demo_url
                    ++ lit ": object of type 'int' has no len()").
Proof. vm_compute. repeat split; reflexivity. Qed.

(** ** Further properties on the example worlds *)

Example all_timeout_result :
  snd (clone_and_scan json_loads_sample format_fields TOOLS task_all_timeout
         demo_url) = result_timed_out.
Proof. vm_compute. reflexivity. Qed.

Lemma result_timed_out_quiet : quiet result_timed_out.
Proof.
  split; [reflexivity|].
  intros tool v [<-|[<-|[]]] Hv; vm_compute in Hv; inversion Hv; now right.
Qed.

Lemma only_entry_quiet (u : str) (data : entry) :
  In (u, data) [(demo_url, Scanned result_timed_out)] ->
  exists r, data = Scanned r /\ quiet r.
Proof.
  intros [Heq|[]]. inversion Heq.
  exists result_timed_out. split; [reflexivity | exact result_timed_out_quiet].
Qed.

(** X1 on a report whose only repository timed out in both tools. *)
Lemma quiet_report_all_clean_witness :
  (forall u data,
      In (u, data) [(demo_url, Scanned result_timed_out)] ->
      exists r, data = Scanned r /\ quiet r) /\
  format_report ascii_upper str_sample [(demo_url, Scanned result_timed_out)]
  = inr all_clean_message.
Proof.
  split; [exact only_entry_quiet|].
  exact (quiet_report_all_clean ascii_upper str_sample
           [(demo_url, Scanned result_timed_out)] only_entry_quiet).
Defined.

(** X2 on the report of a failed clone. *)
Lemma rendered_report_shows_errors_witness :
  let report := [(demo_url, Scanned result_clone_failed)] in
  let msg := lit "Clone failed: " ++ demo_url in
  format_report ascii_upper str_sample report = inr (error_line msg) /\
  In (demo_url, Scanned result_clone_failed) report /\
  error result_clone_failed = Some msg /\
  nonempty msg = true /\
  exists before after, error_line msg = before ++ error_line msg ++ after.
Proof.
  intros report msg.
  assert (Hfmt : format_report ascii_upper str_sample report
                 = inr (error_line msg)) by (vm_compute; reflexivity).
  assert (Hin : In (demo_url, Scanned result_clone_failed) report)
    by (left; reflexivity).
  split; [exact Hfmt|]. split; [exact Hin|]. do 2 (split; [reflexivity|]).
  exact (rendered_report_shows_errors ascii_upper str_sample report
           (error_line msg) demo_url msg result_clone_failed
           Hfmt Hin eq_refl eq_refl).
Defined.

(** X3 on a report that holds only the handler's entry. *)
Lemma failed_entry_breaks_report_witness :
  report_lines ascii_upper str_sample [] = inr (false, []) /\
  format_report ascii_upper str_sample
    ([] ++ (demo_url, Failed (lit "boom")) :: [])
  = inl (Exn KeyError (lit "'status'")).
Proof.
  split; [reflexivity|].
  exact (failed_entry_breaks_report ascii_upper str_sample [] [] demo_url
           (lit "boom") (false, []) eq_refl).
Defined.

Example number_result :
  snd (clone_and_scan json_loads_sample format_fields TOOLS task_number
         demo_url) = result_number.
Proof. vm_compute. reflexivity. Qed.

(** X4 on the report of a task whose gitleaks findings are a number. *)
Lemma report_fails_on_unsized_findings_witness :
  let report := [(demo_url, Scanned result_number)] in
  let e := Exn TypeError (lit "object of type 'int' has no len()") in
  In (demo_url, Scanned result_number) report /\
  truthy_opt (error result_number) = true /\
  In (lit "gitleaks", VInt 5) (findings result_number) /\
  (lit "gitleaks" = lit "trufflehog" \/ lit "gitleaks" = lit "gitleaks") /\
  truthy (VInt 5) = true /\
  py_len (VInt 5) = inl e /\
  exists e', format_report ascii_upper str_sample report = inl e'.
Proof.
  intros report e.
  assert (Hin : In (demo_url, Scanned result_number) report)
    by (left; reflexivity).
  assert (Hfind : In (lit "gitleaks", VInt 5) (findings result_number))
    by (right; left; reflexivity).
  assert (Htool : lit "gitleaks" = lit "trufflehog"
                  \/ lit "gitleaks" = lit "gitleaks") by (right; reflexivity).
  split; [exact Hin|]. split; [reflexivity|]. split; [exact Hfind|].
  split; [exact Htool|]. do 2 (split; [reflexivity|]).
  exact (report_fails_on_unsized_findings ascii_upper str_sample report
           demo_url (lit "gitleaks") result_number (VInt 5) e
           Hin eq_refl Hfind Htool eq_refl eq_refl).
Defined.

(** The whole run of that task: the scan is done and no report is
    printed. *)
Example number_run_prints_nothing :
  snd (main json_loads_sample format_fields ascii_upper str_sample TOOLS
         world_number (lit "repos.txt"))
  = Uncaught (Exn TypeError (lit "'int' object is not iterable")).
Proof. vm_compute. reflexivity. Qed.

Lemma blanks_are_space (c : char) :
  In c [32%N; 10%N; 9%N] -> isspace c = true.
Proof. intros [<-|[<-|[<-|[]]]]; reflexivity. Qed.

(** X5 at a gitleaks run that printed only blanks. *)
Lemma blank_stdout_is_clean_witness :
  dict_get TOOLS (lit "gitleaks") = Some gitleaks_config /\
  subprocess_run task_blank_output gitleaks_cmd (timeout gitleaks_config)
  = inr [32%N; 10%N; 9%N] /\
  (forall c, In c [32%N; 10%N; 9%N] -> isspace c = true) /\
  run_tool json_loads_sample TOOLS task_blank_output (lit "gitleaks")
    gitleaks_cmd demo_dir demo_url
  = ([Run gitleaks_cmd (timeout gitleaks_config)], inr VNone) /\
  status_of VNone = inr (lit "Clean").
Proof.
  do 2 (split; [reflexivity|]). split; [exact blanks_are_space|].
  exact (blank_stdout_is_clean json_loads_sample TOOLS task_blank_output
           (lit "gitleaks") gitleaks_cmd demo_dir demo_url [32%N; 10%N; 9%N]
           gitleaks_config eq_refl eq_refl blanks_are_space).
Defined.

(** X6 at a trufflehog run that printed two secrets. *)
Lemma line_delimited_findings_witness :
  let stdout := secret_line ++ [10%N; 10%N] ++ secret_line ++ [10%N] in
  let lines :=
    filter (fun line => nonempty (strip line)) (split 10%N (strip stdout)) in
  dict_get TOOLS (lit "trufflehog") = Some trufflehog_config /\
  output_key trufflehog_config = None /\
  subprocess_run task_two_secrets trufflehog_cmd (timeout trufflehog_config)
  = inr stdout /\
  Forall2 (fun line v => json_loads_sample line = inr v) lines
    [one_secret; one_secret] /\
  [one_secret; one_secret] <> [] /\
  run_tool json_loads_sample TOOLS task_two_secrets (lit "trufflehog")
    trufflehog_cmd demo_dir demo_url
  = ([Run trufflehog_cmd (timeout trufflehog_config)],
     inr (VList [one_secret; one_secret])) /\
  status_of (VList [one_secret; one_secret])
  = inr (str_of_nat (length lines) ++ lit " findings").
Proof.
  intros stdout lines.
  assert (Hlines : lines = [secret_line; secret_line])
    by (vm_compute; reflexivity).
  assert (Hdec : Forall2 (fun line v => json_loads_sample line = inr v) lines
                   [one_secret; one_secret]).
  { rewrite Hlines. repeat constructor. }
  assert (Hne : [one_secret; one_secret] <> []) by discriminate.
  do 3 (split; [reflexivity|]). split; [exact Hdec|]. split; [exact Hne|].
  exact (line_delimited_findings json_loads_sample TOOLS task_two_secrets
           (lit "trufflehog") trufflehog_cmd demo_dir demo_url stdout
           trufflehog_config [one_secret; one_secret]
           eq_refl eq_refl eq_refl Hdec Hne).
Defined.

(** X7 at a gitleaks run that printed a top-level array. *)
Lemma run_tool_result_shape_witness :
  run_tool json_loads_sample TOOLS task_array (lit "gitleaks") gitleaks_cmd
    demo_dir demo_url
  = ([Run gitleaks_cmd (timeout gitleaks_config)], inr (VList [])) /\
  (VList [] = VNone \/ VList [] = VList [] \/ truthy (VList []) = true).
Proof.
  assert (Hrun : run_tool json_loads_sample TOOLS task_array (lit "gitleaks")
                   gitleaks_cmd demo_dir demo_url
                 = ([Run gitleaks_cmd (timeout gitleaks_config)],
                    inr (VList []))) by (vm_compute; reflexivity).
  split; [exact Hrun|].
  exact (run_tool_result_shape json_loads_sample TOOLS task_array
           (lit "gitleaks") gitleaks_cmd demo_dir demo_url
           [Run gitleaks_cmd (timeout gitleaks_config)] (VList []) Hrun).
Defined.

(** X8 at a gitleaks run whose report holds the string "timeout". *)
Lemma timeout_string_is_labelled_timed_out_witness :
  let record := VDict [(lit "Findings", VStr (lit "timeout"))] in
  dict_get TOOLS (lit "gitleaks") = Some gitleaks_config /\
  output_key gitleaks_config = Some (lit "Findings") /\
  lit "Findings" <> [] /\
  subprocess_run task_timeout_string gitleaks_cmd (timeout gitleaks_config)
  = inr timeout_report_line /\
  decode_stdout json_loads_more timeout_report_line = inr [record] /\
  walk_objects (split 46%N (lit "Findings")) record
  = Some (VStr (lit "timeout")) /\
  run_tool json_loads_more TOOLS task_timeout_string (lit "gitleaks")
    gitleaks_cmd demo_dir demo_url
  = ([Run gitleaks_cmd (timeout gitleaks_config)], inr (VStr (lit "timeout"))) /\
  status_of (VStr (lit "timeout")) = inr (lit "Timed out").
Proof.
  intros record.
  assert (H3 : lit "Findings" <> []) by discriminate.
  assert (H5 : decode_stdout json_loads_more timeout_report_line
               = inr [record]) by (vm_compute; reflexivity).
  do 2 (split; [reflexivity|]). split; [exact H3|].
  split; [reflexivity|]. split; [exact H5|]. split; [reflexivity|].
  exact (timeout_string_is_labelled_timed_out json_loads_more TOOLS
           task_timeout_string (lit "gitleaks") gitleaks_cmd demo_dir demo_url
           (lit "Findings") timeout_report_line gitleaks_config [record]
           eq_refl eq_refl H3 eq_refl H5 eq_refl).
Defined.

(** X9 at a list of one finding. *)
Lemma status_labels_distinct_witness :
  status_of (VList [one_leak]) = inr (lit "1 findings") /\
  (lit "1 findings" = lit "Timed out" <-> VList [one_leak] = VStr (lit "timeout")) /\
  (lit "1 findings" = lit "Clean" <->
   VList [one_leak] <> VStr (lit "timeout") /\ truthy (VList [one_leak]) = false).
Proof.
  split; [reflexivity|].
  exact (status_labels_distinct (VList [one_leak]) (lit "1 findings") eq_refl).
Defined.

(** X10 at the task whose trufflehog run timed out. *)
Lemma timeout_does_not_stop_the_loop_witness :
  let rest := [(lit "gitleaks", gitleaks_config)] in
  let run :=
    scan_tools json_loads_sample format_fields TOOLS task_timeout demo_url
      demo_dir ((lit "trufflehog", trufflehog_config) :: rest) no_results in
  let others :=
    scan_tools json_loads_sample format_fields TOOLS task_timeout demo_url
      demo_dir rest no_results in
  dict_get TOOLS (lit "trufflehog") = Some trufflehog_config /\
  format_fields (command trufflehog_config) demo_dir demo_url
  = inr trufflehog_cmd /\
  subprocess_run task_timeout trufflehog_cmd (timeout trufflehog_config)
  = inl timeout_error /\
  is_TimeoutExpired timeout_error = true /\
  ~ In (lit "trufflehog") (keys rest) /\
  dict_get (status (fst (snd run))) (lit "trufflehog") = Some (lit "Timed out") /\
  dict_get (findings (fst (snd run))) (lit "trufflehog")
  = Some (VStr (lit "timeout")) /\
  fst run
  = Run trufflehog_cmd (timeout trufflehog_config)
      :: Print (Fore_YELLOW ++ lit "trufflehog" ++ lit " timed out")
      :: fst others /\
  snd (snd run) = snd (snd others).
Proof.
  intros rest run others.
  assert (Hrest : ~ In (lit "trufflehog") (keys rest))
    by (intros [H|[]]; discriminate H).
  do 4 (split; [reflexivity|]). split; [exact Hrest|].
  exact (timeout_does_not_stop_the_loop json_loads_sample format_fields TOOLS
           task_timeout demo_url demo_dir (lit "trufflehog") trufflehog_cmd
           trufflehog_config rest no_results timeout_error
           eq_refl eq_refl eq_refl eq_refl Hrest).
Defined.

(** X11 for [demo_url] and the temporary directory of the examples. *)
Lemma clone_path_shape_witness :
  demo_tmp <> [] /\
  last demo_tmp 0%N <> 47%N /\
  ~ In 47%N (repo_name demo_url) /\
  path_join demo_tmp (repo_name demo_url)
  = demo_tmp ++ lit "/" ++ repo_name demo_url.
Proof.
  assert (H1 : demo_tmp <> []) by discriminate.
  assert (H2 : last demo_tmp 0%N <> 47%N) by discriminate.
  split; [exact H1|]. split; [exact H2|].
  exact (proj1 clone_path_shape demo_url demo_tmp H1 H2).
Defined.

(** A URL that ends in a slash is cloned into the temporary directory
    itself. *)
Example trailing_slash_clones_into_temp_dir :
  path_join demo_tmp (repo_name (lit "https://github.com/octocat/demo/"))
  = lit "/tmp/tmpk3x9/".
Proof. reflexivity. Qed.

Lemma demo_is_plain (c : char) : In c (lit "demo") -> c <> 47%N /\ c <> 46%N.
Proof.
  intros H; simpl in H.
  repeat (destruct H as [<-|H]; [split; discriminate|]). destruct H.
Qed.

(** X12 for a repository named demo. *)
Lemma repo_name_of_plain_segment_witness :
  let base := lit "https://github.com/octocat" in
  ~ In 47%N (lit "demo") /\
  ~ In 46%N (lit "demo") /\
  repo_name (base ++ 47%N :: lit "demo" ++ lit ".git") = lit "demo" /\
  repo_name (base ++ 47%N :: lit "demo") = lit "demo".
Proof.
  intros base.
  assert (H1 : ~ In 47%N (lit "demo"))
    by (intros H; now destruct (demo_is_plain _ H)).
  assert (H2 : ~ In 46%N (lit "demo"))
    by (intros H; now destruct (demo_is_plain _ H)).
  split; [exact H1|]. split; [exact H2|].
  exact (repo_name_of_plain_segment base (lit "demo") H1 H2).
Defined.

(** X13 at a task in which both tools print nothing. *)
Lemma result_without_error_is_complete_witness :
  let run := clone_and_scan json_loads_sample format_fields TOOLS task_clean
               demo_url in
  NoDup (keys TOOLS) /\
  error (snd run) = None /\
  keys (status (snd run)) = keys TOOLS /\
  keys (findings (snd run)) = keys TOOLS /\
  length (commands_run (fst run)) = length TOOLS.
Proof.
  intros run. split; [exact TOOLS_keys_NoDup|]. split; [reflexivity|].
  exact (result_without_error_is_complete json_loads_sample format_fields
           TOOLS task_clean demo_url TOOLS_keys_NoDup eq_refl).
Defined.

(** X14 for the file of [world_twice]. *)
Lemma urls_read_are_trimmed_witness :
  let text := lit "  " ++ demo_url ++ [13%N; 10%N; 10%N] ++ demo_url ++ [10%N] in
  In demo_url (read_repos text) /\
  demo_url <> [] /\ strip demo_url = demo_url /\
  ~ In 10%N demo_url /\ ~ In 13%N demo_url.
Proof.
  intros text.
  assert (Hin : In demo_url (read_repos text))
    by (vm_compute; left; reflexivity).
  split; [exact Hin|].
  exact (urls_read_are_trimmed text demo_url Hin).
Defined.

Lemma blank_text_is_space (c : char) :
  In c [10%N; 32%N; 32%N; 13%N; 10%N] -> isspace c = true.
Proof. intros [<-|[<-|[<-|[<-|[<-|[]]]]]]; reflexivity. Qed.

(** X15 on a file of blank lines. *)
Lemma blank_file_is_all_clean_witness :
  check_tools_installed TOOLS world_blank_file = ([], None) /\
  open_read world_blank_file (lit "repos.txt")
  = inr [10%N; 32%N; 32%N; 13%N; 10%N] /\
  (forall c, In c [10%N; 32%N; 32%N; 13%N; 10%N] -> isspace c = true) /\
  main json_loads_sample format_fields ascii_upper str_sample TOOLS
    world_blank_file (lit "repos.txt")
  = ([Print all_clean_message], Returned).
Proof.
  do 2 (split; [reflexivity|]). split; [exact blank_text_is_space|].
  exact (blank_file_is_all_clean json_loads_sample format_fields ascii_upper
           str_sample TOOLS world_blank_file (lit "repos.txt")
           [10%N; 32%N; 32%N; 13%N; 10%N] eq_refl eq_refl blank_text_is_space).
Defined.

Lemma two_urls_NoDup : NoDup [demo_url; other_url].
Proof.
  repeat constructor; simpl; intros H;
    repeat (destruct H as [H|H]; [discriminate H|]); exact H.
Qed.

(** X16 on a run over two URLs whose second task completes first. *)
Lemma distinct_urls_keep_every_result_witness :
  NoDup [demo_url; other_url] /\
  nth_error [demo_url; other_url] 1 = Some other_url /\
  dict_get (collect json_loads_sample format_fields TOOLS world_two_urls
              [demo_url; other_url]) other_url
  = Some (Scanned (snd (clone_and_scan json_loads_sample format_fields TOOLS
                          (task_world world_two_urls 1) other_url))).
Proof.
  split; [exact two_urls_NoDup|]. split; [reflexivity|].
  exact (distinct_urls_keep_every_result json_loads_sample format_fields TOOLS
           world_two_urls [demo_url; other_url] 1 other_url
           two_urls_NoDup eq_refl).
Defined.

Lemma quiet_tasks (i : nat) (url : str) :
  nth_error (read_repos demo_url) i = Some url ->
  quiet (snd (clone_and_scan json_loads_sample format_fields TOOLS
                (task_world world_quiet i) url)).
Proof.
  intros H. assert (Hr : read_repos demo_url = [demo_url])
    by (vm_compute; reflexivity).
  rewrite Hr in H. destruct i as [|[|i]]; simpl in H; try discriminate H.
  inversion H; subst url.
  change (task_world world_quiet 0) with task_all_timeout.
  rewrite all_timeout_result. exact result_timed_out_quiet.
Qed.

(** X17 on a run whose only task timed out in both tools. *)
Lemma quiet_run_prints_all_clean_witness :
  check_tools_installed TOOLS world_quiet = ([], None) /\
  open_read world_quiet (lit "repos.txt") = inr demo_url /\
  (forall i url,
      nth_error (read_repos demo_url) i = Some url ->
      quiet (snd (clone_and_scan json_loads_sample format_fields TOOLS
                    (task_world world_quiet i) url))) /\
  main json_loads_sample format_fields ascii_upper str_sample TOOLS world_quiet
    (lit "repos.txt")
  = (map Submit (read_repos demo_url)
       ++ flat_map fut_events
            (as_completed (completion world_quiet)
               (submit_all json_loads_sample format_fields TOOLS world_quiet 0
                  (read_repos demo_url)))
       ++ [Print all_clean_message],
     Returned).
Proof.
  do 2 (split; [reflexivity|]). split; [exact quiet_tasks|].
  exact (quiet_run_prints_all_clean json_loads_sample format_fields ascii_upper
           str_sample TOOLS world_quiet (lit "repos.txt") demo_url
           eq_refl eq_refl quiet_tasks).
Defined.

Lemma one_secret_object : secret_object one_secret.
Proof.
  split; [eexists; reflexivity|].
  intros m1 H1. inversion H1; subst m1. split; [eexists; reflexivity|].
  intros m2 H2. inversion H2; subst m2. split; [eexists; reflexivity|].
  intros m3 H3. inversion H3; subst m3. eexists; reflexivity.
Qed.

Lemma result_found_documented (u : str) (data : entry) :
  In (u, data) [(demo_url, Scanned result_found)] ->
  exists r, data = Scanned r /\
            forall tool v, In (tool, v) (findings r) ->
                           documented_findings tool v.
Proof.
  intros [Heq|[]]. inversion Heq. exists result_found. split; [reflexivity|].
  intros tool v [Hv|[Hv|[]]]; inversion Hv; subst tool v;
    right; right; split; intros Htool; try discriminate Htool.
  - exists [one_secret]. split; [reflexivity|].
    constructor; [exact one_secret_object | constructor].
  - exists [one_leak]. split; [reflexivity|].
    constructor; [eexists; reflexivity | constructor].
Qed.

(** X18 on a report with one secret and one leak. *)
Lemma documented_findings_render_witness :
  (forall u data,
      In (u, data) [(demo_url, Scanned result_found)] ->
      exists r, data = Scanned r /\
                forall tool v, In (tool, v) (findings r) ->
                               documented_findings tool v) /\
  exists body,
    format_report ascii_upper str_sample [(demo_url, Scanned result_found)]
    = inr body.
Proof.
  split; [exact result_found_documented|].
  exact (documented_findings_render ascii_upper str_sample
           [(demo_url, Scanned result_found)] result_found_documented).
Defined.

(** X19 on the same report. *)
Lemma rendered_report_names_repositories_witness :
  let report := [(demo_url, Scanned result_found)] in
  let body :=
    match format_report ascii_upper str_sample report with
    | inr text => text
    | inl _ => []
    end in
  format_report ascii_upper str_sample report = inr body /\
  In (demo_url, Scanned result_found) report /\
  In (lit "gitleaks", lit "1 findings") (status result_found) /\
  dict_get (findings result_found) (lit "gitleaks") = Some (VList [one_leak]) /\
  truthy (VList [one_leak]) = true /\
  is_timeout (VList [one_leak]) = false /\
  exists before after, body = before ++ repo_header demo_url ++ after.
Proof.
  intros report body.
  assert (Hfmt : format_report ascii_upper str_sample report = inr body)
    by (vm_compute; reflexivity).
  assert (Hin : In (demo_url, Scanned result_found) report)
    by (left; reflexivity).
  assert (Hs : In (lit "gitleaks", lit "1 findings") (status result_found))
    by (right; left; reflexivity).
  split; [exact Hfmt|]. split; [exact Hin|]. split; [exact Hs|].
  do 3 (split; [reflexivity|]).
  exact (rendered_report_names_repositories ascii_upper str_sample report body
           demo_url (lit "gitleaks") (lit "1 findings") result_found
           (VList [one_leak]) Hfmt Hin Hs eq_refl eq_refl eq_refl).
Defined.

(** X20: the timed-out repository beside one with findings. *)
Lemma quiet_entry_is_invisible_witness :
  quiet result_timed_out /\
  format_report ascii_upper str_sample
    ([(demo_url, Scanned result_found)]
       ++ (other_url, Scanned result_timed_out) :: [])
  = format_report ascii_upper str_sample
      ([(demo_url, Scanned result_found)] ++ []).
Proof.
  split; [exact result_timed_out_quiet|].
  exact (quiet_entry_is_invisible ascii_upper str_sample
           [(demo_url, Scanned result_found)] [] other_url result_timed_out
           result_timed_out_quiet).
Defined.
